(** * rebabel-format: the CoNLL-U converter and the batch importer

    A shallow embedding of [rebabel_format/converters/conllu.py]
    ([ConnluReader], [ConlluWriter]) and of
    [rebabel_format/processes/importer.py] ([Importer.run]), followed by
    the properties of the format specification that concern them.

    Python [str] values are modelled by [string]; a character stands for
    the code point of the same number, so the model covers the code points
    below 256 and the [str] methods are given their behaviour on that
    range.  Strings with other code points, among them the decimal digits
    of other scripts, which [isdigit] and [int] accept, and the white
    space above U+00FF, are outside the model: the properties below are
    about the lines, ids and values made of code points below 256. *)

From Stdlib Require Import String Ascii ZArith List Bool Lia.
From Stdlib Require Import DecimalString DecimalPos.
From Stdlib Require Import Sorted Permutation.
Import ListNotations.
Local Open Scope string_scope.
Local Open Scope Z_scope.

(* ===================================================================== *)
(** * The Python values and [str] methods the two classes use             *)
(* ===================================================================== *)

Module Py.

(** The objects that travel through [set_feature] and [iter_units]. *)
Inductive value : Type :=
| VStr (s : string)
| VInt (z : Z)
| VBool (b : bool)
| VBytes (s : string).

(** The exceptions that the modelled code can raise. *)
Inductive exn : Type :=
| ReaderError (msg : string)
| NameError (name : string)
| ValueError (msg : string)
| IndexError
| KeyError (k : Z)
| TypeError.

Definition tab : ascii := "009"%char.
Definition newline : ascii := "010"%char.
Definition dquote : ascii := "034"%char.

(** [len(s) == 0], that is [not s]. *)
Definition is_empty (s : string) : bool :=
  match s with EmptyString => true | String _ _ => false end.

(** [c in s] for a one-character [c]. *)
Fixpoint contains (c : ascii) (s : string) : bool :=
  match s with
  | EmptyString => false
  | String d r => if Ascii.eqb d c then true else contains c r
  end.

(** [s.split(sep)] for a one-character separator. *)
Fixpoint split (sep : ascii) (s : string) : list string :=
  match s with
  | EmptyString => [EmptyString]
  | String c r =>
      if Ascii.eqb c sep then EmptyString :: split sep r
      else match split sep r with
           | h :: t => String c h :: t
           | [] => [String c EmptyString]
           end
  end.

(** [s.split(sep, 1)]: one or two pieces. *)
Fixpoint split1 (sep : ascii) (s : string) : list string :=
  match s with
  | EmptyString => [EmptyString]
  | String c r =>
      if Ascii.eqb c sep then [EmptyString; r]
      else match split1 sep r with
           | h :: t => String c h :: t
           | [] => [String c EmptyString]
           end
  end.

(** [sep.join(l)]. *)
Fixpoint join (sep : string) (l : list string) : string :=
  match l with
  | [] => EmptyString
  | [x] => x
  | x :: r => x ++ sep ++ join sep r
  end.

(** [str.isspace] on one character: the white space below code point 256. *)
Definition isspace (c : ascii) : bool :=
  let n := nat_of_ascii c in
  ((9 <=? n) && (n <=? 13) || (28 <=? n) && (n <=? 32)
   || (n =? 133) || (n =? 160))%nat.

Fixpoint lstrip (s : string) : string :=
  match s with
  | EmptyString => EmptyString
  | String c r => if isspace c then lstrip r else s
  end.

Fixpoint rstrip (s : string) : string :=
  match s with
  | EmptyString => EmptyString
  | String c r =>
      let r' := rstrip r in
      if isspace c && is_empty r' then EmptyString else String c r'
  end.

(** [s.strip()]. *)
Definition strip (s : string) : string := rstrip (lstrip s).

Definition is_ascii_digit (c : ascii) : bool :=
  let n := nat_of_ascii c in ((48 <=? n) && (n <=? 57))%nat.

(** Characters for which [str.isdigit] holds: the ASCII digits and the
    superscripts U+00B2, U+00B3 and U+00B9. *)
Definition isdigit_char (c : ascii) : bool :=
  let n := nat_of_ascii c in
  (is_ascii_digit c || (n =? 178) || (n =? 179) || (n =? 185))%nat.

Fixpoint all_chars (p : ascii -> bool) (s : string) : bool :=
  match s with
  | EmptyString => true
  | String c r => p c && all_chars p r
  end.



(** [s.isdigit()]: false on the empty string. *)
Definition isdigit (s : string) : bool :=
  negb (is_empty s) && all_chars isdigit_char s.

Fixpoint int_digits (acc : Z) (s : string) : option Z :=
  match s with
  | EmptyString => Some acc
  | String c r =>
      if is_ascii_digit c
      then int_digits (10 * acc + Z.of_nat (nat_of_ascii c - 48)) r
      else None
  end.

(** [str(n)] for an [int] of at most [int_max_str_digits] digits, the
    limit below; CPython refuses to convert a longer one. *)
Definition str_int (z : Z) : string := NilZero.string_of_int (Z.to_int z).

(** The default of [sys.int_max_str_digits]: the longest run of decimal
    digits that [int] converts. *)
Definition int_max_str_digits : Z := 4300.

(** The number of decimal digits at the start of [s]. *)
Fixpoint digit_run (s : string) : Z :=
  match s with
  | EmptyString => 0
  | String c r => if is_ascii_digit c then 1 + digit_run r else 0
  end.

(** [int(s)] for an [s] that passed [isdigit].  The digits are counted
    first, and more than [int_max_str_digits] of them raise [ValueError];
    a superscript digit is not a decimal digit, and [int] raises
    [ValueError] on it as well. *)
Definition int (s : string) : exn + Z :=
  let digits := digit_run s in
  if int_max_str_digits <? digits
  then inl (ValueError
              ("Exceeds the limit (4300 digits) for integer string conversion: value has "
               ++ str_int digits
               ++ " digits; use sys.set_int_max_str_digits() to increase the limit"))
  else match int_digits 0 s with
       | Some z => inr z
       | None => inl (ValueError ("invalid literal for int() with base 10: '" ++ s ++ "'"))
       end.


(** [list(range(a, b))]. *)
Definition range (a b : Z) : list Z :=
  map (fun i => a + Z.of_nat i) (seq 0 (Z.to_nat (b - a))).

(** [a == b] on the modelled values: [bool] is a subtype of [int]. *)
Definition int_of_bool (b : bool) : Z := if b then 1 else 0.

Definition eq (a b : value) : bool :=
  match a, b with
  | VStr x, VStr y => String.eqb x y
  | VBytes x, VBytes y => String.eqb x y
  | VInt x, VInt y => Z.eqb x y
  | VInt x, VBool y => Z.eqb x (int_of_bool y)
  | VBool x, VInt y => Z.eqb (int_of_bool x) y
  | VBool x, VBool y => Bool.eqb x y
  | _, _ => false
  end.

(** [bool(v)]. *)
Definition truthy (v : value) : bool :=
  match v with
  | VStr s | VBytes s => negb (is_empty s)
  | VInt z => negb (Z.eqb z 0)
  | VBool b => b
  end.

Definition hex_digit (n : nat) : ascii :=
  if (n <? 10)%nat then ascii_of_nat (48 + n) else ascii_of_nat (87 + n).

(** [repr] of a [bytes] object. *)
Definition bytes_repr_char (quote : ascii) (c : ascii) : string :=
  let n := nat_of_ascii c in
  if Ascii.eqb c quote || Ascii.eqb c "\"%char then String "\"%char (String c EmptyString)
  else if (n =? 9)%nat then "\t"
  else if (n =? 10)%nat then "\n"
  else if (n =? 13)%nat then "\r"
  else if ((n <? 32) || (127 <=? n))%nat
       then String "\"%char (String "x"%char
              (String (hex_digit (n / 16)) (String (hex_digit (n mod 16)) EmptyString)))
  else String c EmptyString.

Fixpoint bytes_repr_body (quote : ascii) (s : string) : string :=
  match s with
  | EmptyString => EmptyString
  | String c r => bytes_repr_char quote c ++ bytes_repr_body quote r
  end.

Definition bytes_repr (s : string) : string :=
  let quote :=
    if contains "'"%char s && negb (contains dquote s) then dquote else "'"%char in
  String "b"%char (String quote (bytes_repr_body quote s ++ String quote EmptyString)).

(** [str(v)], as an f-string renders a value. *)
Definition str (v : value) : string :=
  match v with
  | VStr s => s
  | VInt z => str_int z
  | VBool true => "True"
  | VBool false => "False"
  | VBytes s => bytes_repr s
  end.

(** [sorted(l)] on strings: insertion into the code-point order. *)
Fixpoint insert_sorted (x : string) (l : list string) : list string :=
  match l with
  | [] => [x]
  | y :: r => if String.leb x y then x :: l else y :: insert_sorted x r
  end.

Definition sorted (l : list string) : list string :=
  fold_right insert_sorted [] l.

End Py.

(* ===================================================================== *)
(** * [ConnluReader]: the decoder                                         *)
(* ===================================================================== *)

Module ConnluReader.
Import Py.

(** The calls that [process_line] makes on the [Reader] base class, which
    keeps the annotation store.  The base class is outside the modelled
    sources, so a call is recorded in the order in which it is made. *)
Inductive call : Type :=
| CSetType (name typ : string)
| CSetParent (name parent : string)
| CSetFeature (name tier feat typ : string) (v : value)
| CAddRelation (src dst : string).

(** The counters that [reset] initialises. *)
Record counters : Type := mkCounters {
  word_idx : Z;
  token_idx : Z;
  edep_count : Z
}.

(** [reset]. *)
Definition reset : counters := mkCounters 0 0 0.

(** A method body: it reads and updates the counters, makes calls on the
    store, and returns or raises. *)
Definition M (A : Type) : Type := counters -> counters * list call * (exn + A).

Definition ret {A} (x : A) : M A := fun st => (st, [], inr x).

Definition raise {A} (e : exn) : M A := fun st => (st, [], inl e).

Definition bind {A B} (m : M A) (k : A -> M B) : M B :=
  fun st =>
    match m st with
    | (st1, tr1, inl e) => (st1, tr1, inl e)
    | (st1, tr1, inr x) =>
        match k x st1 with
        | (st2, tr2, r) => (st2, (tr1 ++ tr2)%list, r)
        end
    end.

Notation "x <- m ;; k" := (bind m (fun x => k))
  (at level 61, m at next level, right associativity).
Notation "m ;; k" := (bind m (fun _ => k))
  (at level 61, right associativity).

Definition emit (c : call) : M unit := fun st => (st, [c], inr tt).

Definition lift {A} (r : exn + A) : M A :=
  match r with inl e => raise e | inr x => ret x end.

Definition set_type (name typ : string) : M unit := emit (CSetType name typ).
Definition set_parent (name parent : string) : M unit := emit (CSetParent name parent).
Definition set_feature (name tier feat typ : string) (v : value) : M unit :=
  emit (CSetFeature name tier feat typ v).
Definition add_relation (src dst : string) : M unit := emit (CAddRelation src dst).

(** Modelled from the spec: [Reader.error], of the file [reader.py] that is
    outside the modelled sources.  The store interface describes it as
    "fatal-error(message): aborts processing of the current file", and the
    importer catches [ReaderError]: the call raises [ReaderError] with the
    message. *)
Definition error (msg : string) : M unit := raise (ReaderError msg).

(** [for x in l: body]. *)
Fixpoint for_each {A} (l : list A) (body : A -> M unit) : M unit :=
  match l with
  | [] => ret tt
  | x :: r => body x ;; for_each r body
  end.

(** [l[i]]. *)
Definition getitem (l : list string) (i : nat) : M string :=
  match nth_error l i with
  | Some x => ret x
  | None => raise IndexError
  end.

(** [a, b = l]. *)
Definition unpack2 (l : list string) : M (string * string) :=
  match l with
  | [a; b] => ret (a, b)
  | [] | [_] => raise (ValueError "not enough values to unpack (expected 2)")
  | _ => raise (ValueError "too many values to unpack (expected 2)")
  end.

(** [self.token_idx += 1], [self.word_idx += 1], [self.edep_count += 1];
    each returns the new value. *)
Definition incr_token_idx : M Z :=
  fun st => (mkCounters (word_idx st) (token_idx st + 1) (edep_count st), [],
             inr (token_idx st + 1)).
Definition incr_word_idx : M Z :=
  fun st => (mkCounters (word_idx st + 1) (token_idx st) (edep_count st), [],
             inr (word_idx st + 1)).
Definition incr_edep_count : M Z :=
  fun st => (mkCounters (word_idx st) (token_idx st) (edep_count st + 1), [],
             inr (edep_count st + 1)).

(** Lines 61-65: a comment line. *)
Definition process_comment (line : string) : M unit :=
  if contains "="%char line then
    kv <- unpack2 (split1 "="%char (match line with String _ r => r | EmptyString => EmptyString end)) ;;
    set_feature "sentence" "UD" (strip (fst kv)) "str" (VStr (strip (snd kv)))
  else ret tt.

(** Lines 71-86: the unit of the row, its type, parent, id and index. *)
Definition declare_unit (name : string) : M unit :=
  let is_token := contains "-"%char name in
  set_type name (if is_token then "token" else "word") ;;
  set_parent name "sentence" ;;
  set_feature name "UD" "id" "str" (VStr name) ;;
  if is_token then
    n <- incr_token_idx ;;
    set_feature name "meta" "index" "int" (VInt n) ;;
    ab <- unpack2 (split1 "-"%char name) ;;
    if isdigit (fst ab) && isdigit (snd ab) then
      lo <- lift (int (fst ab)) ;;
      hi <- lift (int (snd ab)) ;;
      for_each (range lo (hi + 1)) (fun ch => add_relation (str_int ch) name)
    else ret tt
  else
    n <- incr_word_idx ;;
    set_feature name "meta" "index" "int" (VInt n) ;;
    set_feature name "UD" "null" "bool" (VBool (contains "."%char name)).

(** Lines 92-99: one [key=value] pair of FEATS or MISC. *)
Definition process_pair (name group pair : string) : M unit :=
  (if negb (contains "="%char pair)
   then error ("Invalid key-value pair '" ++ pair ++ "'.")
   else ret tt) ;;
  kv <- unpack2 (split1 "="%char pair) ;;
  if String.eqb (fst kv) "SpaceAfter"
  then set_feature name group (fst kv) "bool" (VBool (negb (String.eqb (snd kv) "No")))
  else set_feature name group (fst kv) "str" (VStr (snd kv)).

(** Lines 88-99: the FEATS and MISC columns. *)
Definition process_groups (name : string) (columns : list string) : M unit :=
  c5 <- getitem columns 5 ;;
  c9 <- getitem columns 9 ;;
  for_each [("UD/FEATS", c5); ("UD/MISC", c9)]
    (fun gv =>
       if String.eqb (snd gv) "_" then ret tt
       else for_each (split "|"%char (snd gv)) (process_pair name (fst gv))).

Definition col_names : list (string * nat) :=
  [("form", 1); ("lemma", 2); ("upos", 3); ("xpos", 4); ("head", 6); ("deprel", 7)]%nat.

(** Lines 103-110: the single-valued columns. *)
Definition process_columns (name : string) (columns : list string) : M unit :=
  for_each col_names
    (fun fc =>
       c <- getitem columns (snd fc) ;;
       if negb (String.eqb c "_") then
         if String.eqb (fst fc) "head" then
           if String.eqb c "0" then ret tt
           else set_feature name "UD" (fst fc) "ref" (VStr c)
         else set_feature name "UD" (fst fc) "str" (VStr c)
       else ret tt).

(** Reading a name that no scope binds.  Line 121 passes [h], and no
    assignment, parameter, import or builtin binds [h]: the unpacking of
    line 120 assigns [head] and [rel]. *)
Definition unbound_name (name : string) : M value := raise (NameError name).

(** Lines 114-123: one [head:deprel] pair of DEPS. *)
Definition process_dep (name pair : string) : M unit :=
  (if negb (contains ":"%char pair)
   then error ("Invalid dependency specifier '" ++ pair ++ "'.")
   else ret tt) ;;
  n <- incr_edep_count ;;
  let ename := String tab (str_int n) in
  set_type ename "UD-edep" ;;
  set_parent ename "sentence" ;;
  hr <- unpack2 (split1 ":"%char pair) ;;
  h <- unbound_name "h" ;;
  set_feature ename "UD" "parent" "ref" h ;;
  set_feature ename "UD" "child" "ref" (VStr name) ;;
  set_feature ename "UD" "deprel" "str" (VStr (snd hr)).

(** Lines 112-123: the DEPS column. *)
Definition process_deps (name : string) (columns : list string) : M unit :=
  c8 <- getitem columns 8 ;;
  if negb (String.eqb c8 "_")
  then for_each (split "|"%char c8) (process_dep name)
  else ret tt.

(** Lines 71-123: the row after the check of its columns. *)
Definition row_body (columns : list string) : M unit :=
  name <- getitem columns 0 ;;
  declare_unit name ;;
  process_groups name columns ;;
  process_columns name columns ;;
  process_deps name columns.

(** Lines 67-123: an annotation row. *)
Definition process_row (line : string) : M unit :=
  let columns := split tab (strip line) in
  (if negb (Nat.eqb (length columns) 10)
   then error ("Expected 10 columns, found " ++ str_int (Z.of_nat (length columns)) ++ ".")
   else ret tt) ;;
  row_body columns.

(** [process_line]. *)
Definition process_line (line : string) : M unit :=
  match line with
  | EmptyString => ret tt
  | String c _ =>
      if Ascii.eqb c "#"%char then process_comment line
      else process_row line
  end.

(** The calls made, and the result, of a method body run from given
    counters. *)
Definition calls {A} (m : M A) (st : counters) : list call := snd (fst (m st)).
Definition result {A} (m : M A) (st : counters) : exn + A := snd (m st).
Definition final {A} (m : M A) (st : counters) : counters := fst (fst (m st)).

(** A row of tab-separated columns. *)
Definition row (columns : list string) : string := join (String tab EmptyString) columns.

(** ** Vocabulary of the properties *)

(** Every call of the body satisfies [P]; every exception it raises
    satisfies [Q]. *)
Definition emits {A} (P : call -> Prop) (m : M A) : Prop :=
  forall st, Forall P (calls m st).

Definition raises {A} (Q : exn -> Prop) (m : M A) : Prop :=
  forall st e, result m st = inl e -> Q e.

Definition is_comment (line : string) : bool :=
  match line with
  | String c _ => Ascii.eqb c "#"%char
  | EmptyString => false
  end.

Definition is_set_feature (c : call) : bool :=
  match c with CSetFeature _ _ _ _ _ => true | _ => false end.

(** The call sets the feature [UD:head]. *)
Definition is_head (c : call) : bool :=
  match c with
  | CSetFeature _ tier feat _ _ => String.eqb tier "UD" && String.eqb feat "head"
  | _ => false
  end.

(** The call sets the feature [UD:head] to zero. *)
Definition head_zero (c : call) : bool :=
  match c with
  | CSetFeature _ tier feat _ v =>
      String.eqb tier "UD" && String.eqb feat "head"
      && (Py.eq v (VStr "0") || Py.eq v (VInt 0))
  | _ => false
  end.

(** The relations added, as pairs (source, target). *)
Definition relations (tr : list call) : list (string * string) :=
  flat_map (fun c => match c with CAddRelation s d => [(s, d)] | _ => [] end) tr.

Definition is_relation (c : call) : bool :=
  match c with CAddRelation _ _ => true | _ => false end.

(** The number that a non-empty string of the digits 0 to 9 denotes. *)
Definition decimal (s : string) : option Z :=
  if is_empty s then None else int_digits 0 s.

(** The number that [int] gives for a string that passed [isdigit]: a
    non-empty string of at most [int_max_str_digits] of the digits 0 to 9
    denotes one, any other string none. *)
Definition numeric (s : string) : option Z :=
  if int_max_str_digits <? digit_run s then None else decimal s.


(** The message of the column-count error. *)
Definition column_count_error (found : string) : exn :=
  ReaderError ("Expected 10 columns, found " ++ found ++ ".").

(** An exception other than a [ReaderError] whose message starts with
    the word Expected. *)
Definition not_expected (e : exn) : Prop :=
  match e with
  | ReaderError (String c _) => c = "I"%char
  | ReaderError EmptyString => False
  | _ => True
  end.

Definition raised {A} (r : exn + A) : bool :=
  match r with inl _ => true | inr _ => false end.

(** The body leaves the counters as they were, whether it returns or
    raises. *)
Definition pure {A} (m : M A) : Prop := forall st, final m st = st.

(** The body keeps the word and token counters and never decreases the
    counter of enhanced dependencies. *)
Definition keeps_units {A} (m : M A) : Prop :=
  forall st,
    word_idx (final m st) = word_idx st
    /\ token_idx (final m st) = token_idx st
    /\ edep_count st <= edep_count (final m st).

(** The call sets a feature of the unit [name] in the tier [tier]. *)
Definition sets_in (name tier : string) (c : call) : bool :=
  match c with
  | CSetFeature n t _ _ _ => String.eqb n name && String.eqb t tier
  | _ => false
  end.

(** The call sets the feature [feat] of the tier [UD]. *)
Definition sets_UD (feat : string) (c : call) : bool :=
  match c with
  | CSetFeature _ t f _ _ => String.eqb t "UD" && String.eqb f feat
  | _ => false
  end.

(** The pairs of a FEATS or MISC column: none for the placeholder. *)
Definition pairs_of (val : string) : list string :=
  if String.eqb val "_" then [] else split "|"%char val.

(** The feature that a [key=value] pair of FEATS or MISC stands for. *)
Definition pair_feature (name group k v : string) : call :=
  if String.eqb k "SpaceAfter"
  then CSetFeature name group k "bool" (VBool (negb (String.eqb v "No")))
  else CSetFeature name group k "str" (VStr v).

(** The call is one that the store interface describes: a type among
    [word], [token] and [UD-edep], the sentence as parent, a feature in
    one of the four tiers whose declared type agrees with its value. *)
Definition well_typed (c : call) : bool :=
  match c with
  | CSetType _ t =>
      String.eqb t "word" || String.eqb t "token" || String.eqb t "UD-edep"
  | CSetParent _ p => String.eqb p "sentence"
  | CSetFeature _ tier _ typ v =>
      (String.eqb tier "UD" || String.eqb tier "meta"
       || String.eqb tier "UD/FEATS" || String.eqb tier "UD/MISC")
      && match v with
         | VStr _ => String.eqb typ "str" || String.eqb typ "ref"
         | VInt _ => String.eqb typ "int"
         | VBool _ => String.eqb typ "bool"
         | VBytes _ => false
         end
  | CAddRelation _ _ => true
  end.

(** The call [c] stores the pair [p], split at its first equals sign. *)
Definition stores_pair (name group : string) (p : string) (c : call) : Prop :=
  exists k v,
    p = k ++ String "="%char v
    /\ contains "="%char k = false
    /\ c = pair_feature name group k v.

End ConnluReader.

(* ===================================================================== *)
(** * [ConlluWriter]: the encoder                                         *)
(* ===================================================================== *)

Module ConlluWriter.
Import Py.

(** The keys of [feat_dict]: opaque to the writer, compared by [==]. *)
Definition key : Type := Z.

(** A value of [feat_dict]: the tuple [(tier, feat, typ)]. *)
Definition featspec : Type := (string * string * string)%type.

(** A [dict], in insertion order. *)
Definition dict (V : Type) : Type := list (key * V).

(** A unit as [iter_units] yields it: its id and its features. *)
Definition unit_feats : Type := (value * dict value)%type.

(** What the [Writer] base class, which is outside the modelled sources,
    answers to the three queries of [write]. *)
Record store : Type := mkStore {
  all_feats_from_tiers : dict featspec;
  iter_sentences : list unit_feats;
  iter_words : value -> list unit_feats
}.

(** [l.append(x)]. *)
Definition append {A} (l : list A) (x : A) : list A := (l ++ [x])%list.

(** [d.get(k)] and [k in d]. *)
Fixpoint get {V} (k : key) (d : dict V) : option V :=
  match d with
  | [] => None
  | (k', v) :: r => if Z.eqb k' k then Some v else get k r
  end.

(** [d[k]]. *)
Definition getitem {V} (d : dict V) (k : key) : exn + V :=
  match get k d with
  | Some v => inr v
  | None => inl (KeyError k)
  end.

Definition spec_eqb (a b : featspec) : bool :=
  let '(t1, f1, y1) := a in
  let '(t2, f2, y2) := b in
  String.eqb t1 t2 && String.eqb f1 f2 && String.eqb y1 y2.

(** Lines 132-138: the keys of [UD:sent_id] and [UD:null]. *)
Fixpoint find_keys (items : dict featspec) (sent_id null : option key)
  : option key * option key :=
  match items with
  | [] => (sent_id, null)
  | (k, v) :: r =>
      if spec_eqb v ("UD", "sent_id", "str") || spec_eqb v ("UD", "sent_id", "int")
      then find_keys r (Some k) null
      else if spec_eqb v ("UD", "null", "bool")
      then find_keys r sent_id (Some k)
      else find_keys r sent_id null
  end.

(** [feats.get(k, default)] where [k] is a key or [None]. *)
Definition get_default (k : option key) (feats : dict value) (default : value) : value :=
  match k with
  | Some k' => match get k' feats with Some v => v | None => default end
  | None => default
  end.

(** [l[i] = x], for an [i] within the list. *)
Fixpoint set_item {A} (l : list A) (i : nat) (x : A) : list A :=
  match l, i with
  | [], _ => []
  | _ :: r, O => x :: r
  | y :: r, S j => y :: set_item r j x
  end.

(** [id2idx[wid] = widx] and [id2idx.get(h)], on keys compared by [==]. *)
Fixpoint id2idx_set (d : list (value * string)) (wid : value) (widx : string)
  : list (value * string) :=
  match d with
  | [] => [(wid, widx)]
  | (k, v) :: r => if Py.eq k wid then (k, widx) :: r else (k, v) :: id2idx_set r wid widx
  end.

Fixpoint id2idx_get (d : list (value * string)) (h : value) : option string :=
  match d with
  | [] => None
  | (k, v) :: r => if Py.eq k h then Some v else id2idx_get r h
  end.

(** The variables of the loop over the features of one word. *)
Record word_vars : Type := mkWordVars {
  row : list value;
  FEAT : list string;
  MISC : list string;
  heads : list (nat * value)
}.

(** Lines 167-189: one feature of a word; [nwords] is [len(words)]. *)
Definition visit_feature (feat_dict : dict featspec) (nwords : nat)
    (w : word_vars) (iv : key * value) : exn + word_vars :=
  match getitem feat_dict (fst iv) with
  | inl e => inl e
  | inr (tier, feat, typ) =>
      let v := snd iv in
      if String.eqb tier "UD/FEATS" then
        inr (mkWordVars (row w) (append (FEAT w) (feat ++ "=" ++ str v)) (MISC w) (heads w))
      else if String.eqb tier "UD/MISC" then
        let v' :=
          if String.eqb feat "SpaceAfter" && String.eqb typ "bool" then
            if negb (truthy v) || Py.eq v (VBytes "0") then VStr "No" else VStr "Yes"
          else v in
        inr (mkWordVars (row w) (FEAT w) (append (MISC w) (feat ++ "=" ++ str v')) (heads w))
      else if String.eqb tier "UD" then
        if String.eqb feat "form" then
          inr (mkWordVars (set_item (row w) 1 v) (FEAT w) (MISC w) (heads w))
        else if String.eqb feat "lemma" then
          inr (mkWordVars (set_item (row w) 2 v) (FEAT w) (MISC w) (heads w))
        else if String.eqb feat "upos" then
          inr (mkWordVars (set_item (row w) 3 v) (FEAT w) (MISC w) (heads w))
        else if String.eqb feat "xpos" then
          inr (mkWordVars (set_item (row w) 4 v) (FEAT w) (MISC w) (heads w))
        else if String.eqb feat "deprel" then
          inr (mkWordVars (set_item (row w) 7 v) (FEAT w) (MISC w) (heads w))
        else if String.eqb feat "head" then
          inr (mkWordVars (row w) (FEAT w) (MISC w) (append (heads w) (nwords, v)))
        else inr w
      else inr w
  end.

Fixpoint visit_features (feat_dict : dict featspec) (nwords : nat)
    (items : dict value) (w : word_vars) : exn + word_vars :=
  match items with
  | [] => inr w
  | iv :: r =>
      match visit_feature feat_dict nwords w iv with
      | inl e => inl e
      | inr w' => visit_features feat_dict nwords r w'
      end
  end.

(** The variables of the loop over the words of one sentence. *)
Record sent_vars : Type := mkSentVars {
  words : list (list value);
  id2idx : list (value * string);
  idx1 : Z;
  idx2 : Z;
  sheads : list (nat * value)
}.

(** Lines 148-152. *)
Definition sent_init : sent_vars := mkSentVars [] [] 0 0 [].

(** Line 155: [wfeats.get(null, False) == True]. *)
Definition is_null (null : option key) (wfeats : dict value) : bool :=
  Py.eq (get_default null wfeats (VBool false)) (VBool true).

(** Lines 155-161: the counters after the word and its printable
    position. *)
Definition position (null : option key) (wfeats : dict value) (i1 i2 : Z)
  : Z * Z * string :=
  if is_null null wfeats
  then (i1, i2 + 1, str_int i1 ++ ":" ++ str_int (i2 + 1))
  else (i1 + 1, 0, str_int (i1 + 1)).

(** Lines 154-194: one word. *)
Definition visit_word (feat_dict : dict featspec) (null : option key)
    (s : sent_vars) (w : unit_feats) : exn + sent_vars :=
  let '(i1, i2, widx) := position null (snd w) (idx1 s) (idx2 s) in
  let id2idx' := id2idx_set (id2idx s) (fst w) widx in
  let row0 := VStr widx :: repeat (VStr "_") 9 in
  match visit_features feat_dict (length (words s)) (snd w)
          (mkWordVars row0 [] [] (sheads s)) with
  | inl e => inl e
  | inr wv =>
      let row1 :=
        match FEAT wv with
        | [] => row wv
        | _ => set_item (row wv) 5 (VStr (join "|" (sorted (FEAT wv))))
        end in
      let row2 :=
        match MISC wv with
        | [] => row1
        | _ => set_item row1 9 (VStr (join "|" (sorted (MISC wv))))
        end in
      inr (mkSentVars (append (words s) row2) id2idx' i1 i2 (heads wv))
  end.

(** Lines 153-194: the pass over the words. *)
Fixpoint visit_words (feat_dict : dict featspec) (null : option key)
    (ws : list unit_feats) (s : sent_vars) : exn + sent_vars :=
  match ws with
  | [] => inr s
  | w :: r =>
      match visit_word feat_dict null s w with
      | inl e => inl e
      | inr s' => visit_words feat_dict null r s'
      end
  end.

(** [words[i][6] = x]. *)
Definition set_head (rows : list (list value)) (i : nat) (x : value)
  : list (list value) :=
  match nth_error rows i with
  | Some r => set_item rows i (set_item r 6 x)
  | None => rows
  end.

(** Lines 195-197: the deferred heads. *)
Fixpoint resolve_heads (hs : list (nat * value)) (d : list (value * string))
    (rows : list (list value)) : list (list value) :=
  match hs with
  | [] => rows
  | (i, h) :: r =>
      match id2idx_get d h with
      | Some p => resolve_heads r d (set_head rows i (VStr p))
      | None => resolve_heads r d rows
      end
  end.

(** [row[i]], for an [i] within the row. *)
Definition cell (r : list value) (i : nat) : value := nth i r (VStr "").

(** Lines 199-201: the head of a root. *)
Definition fix_root (r : list value) : list value :=
  if Py.eq (cell r 6) (VStr "_") && Py.eq (cell r 7) (VStr "root")
  then set_item r 6 (VStr "0") else r.

(** Lines 148-201: the rows of a sentence. *)
Definition sentence_rows (feat_dict : dict featspec) (null : option key)
    (ws : list unit_feats) : exn + list (list value) :=
  match visit_words feat_dict null ws sent_init with
  | inl e => inl e
  | inr s => inr (map fix_root (resolve_heads (sheads s) (id2idx s) (words s)))
  end.

(** ['\t'.join(row)]: every item must be a [str]. *)
Fixpoint strs (r : list value) : exn + list string :=
  match r with
  | [] => inr []
  | VStr x :: t => match strs t with inl e => inl e | inr l => inr (x :: l) end
  | _ :: _ => inl TypeError
  end.

Fixpoint join_rows (rows : list (list value)) : exn + list string :=
  match rows with
  | [] => inr []
  | r :: t =>
      match strs r with
      | inl e => inl e
      | inr l =>
          match join_rows t with
          | inl e => inl e
          | inr ls => inr (join (String tab EmptyString) l :: ls)
          end
      end
  end.

Definition nl : string := String newline EmptyString.

(** Lines 142-147: the comment lines of a sentence; what was written and
    the exception that ended the loop, if any. *)
Fixpoint write_comments (feat_dict : dict featspec) (sent_id : option key)
    (items : dict value) : list string * option exn :=
  match items with
  | [] => ([], None)
  | (k, v) :: r =>
      if match sent_id with Some s => Z.eqb k s | None => false end
      then write_comments feat_dict sent_id r
      else
        match getitem feat_dict k with
        | inl e => ([], Some e)
        | inr (tier, feat, typ) =>
            let out := if String.eqb tier "UD"
                       then ["# " ++ feat ++ " = " ++ str v ++ nl] else [] in
            let '(o, e) := write_comments feat_dict sent_id r in
            ((out ++ o)%list, e)
        end
  end.

(** Lines 140-202: one sentence. *)
Definition write_sentence (db : store) (feat_dict : dict featspec)
    (sent_id null : option key) (s : unit_feats) : list string * option exn :=
  let si := get_default sent_id (snd s) (fst s) in
  let head := "# sent_id = " ++ str si ++ nl in
  match write_comments feat_dict sent_id (snd s) with
  | (o, Some e) => (head :: o, Some e)
  | (o, None) =>
      match sentence_rows feat_dict null (iter_words db (fst s)) with
      | inl e => (head :: o, Some e)
      | inr rows =>
          match join_rows rows with
          | inl e => (head :: o, Some e)
          | inr ls => (append (head :: o) (join nl ls ++ nl ++ nl), None)
          end
      end
  end.

Fixpoint write_sentences (db : store) (feat_dict : dict featspec)
    (sent_id null : option key) (ss : list unit_feats) : list string * option exn :=
  match ss with
  | [] => ([], None)
  | s :: r =>
      match write_sentence db feat_dict sent_id null s with
      | (o, Some e) => (o, Some e)
      | (o, None) =>
          let '(o', e) := write_sentences db feat_dict sent_id null r in
          ((o ++ o')%list, e)
      end
  end.

(** [write]: the strings passed to [fout.write], in order, and the
    exception that ended the run, if any. *)
Definition write (db : store) : list string * option exn :=
  let feat_dict := all_feats_from_tiers db in
  let '(sent_id, null) := find_keys feat_dict None None in
  write_sentences db feat_dict sent_id null (iter_sentences db).

(** ** Vocabulary of the properties *)








(** A string that does not start with an underscore. *)
Definition underscore_free (p : string) : Prop :=
  match p with
  | String c _ => c <> "_"%char
  | EmptyString => False
  end.















(** The key of the last item whose value satisfies [p], or [d]. *)
Definition last_key (p : featspec -> bool) (items : dict featspec)
    (d : option key) : option key :=
  match rev (filter (fun kv : key * featspec => p (snd kv)) items) with
  | (k, _) :: _ => Some k
  | [] => d
  end.

Definition is_sent_id (v : featspec) : bool :=
  spec_eqb v ("UD", "sent_id", "str") || spec_eqb v ("UD", "sent_id", "int").

Definition is_null_spec (v : featspec) : bool :=
  spec_eqb v ("UD", "null", "bool").


(** The chunks that the sentences write, one after the other. *)
Definition chunks_of (db : store) (feat_dict : dict featspec)
    (sent_id null : option key) (ss : list unit_feats) : list string :=
  flat_map (fun s => fst (write_sentence db feat_dict sent_id null s)) ss.

(** ** A store for the examples *)

Definition ex_feat_dict : dict featspec :=
  [(1, ("UD", "form", "str")); (2, ("UD", "head", "ref"));
   (3, ("UD", "deprel", "str")); (4, ("UD/MISC", "SpaceAfter", "bool"));
   (5, ("UD", "null", "bool")); (6, ("UD", "sent_id", "str"))].


(** "The dog", with the head of the first word on the second, a head on a
    unit that is not a word of the sentence, and a root. *)
Definition ex_dog_words : list unit_feats :=
  [(VInt 21, [(1, VStr "The"); (2, VInt 22); (3, VStr "det"); (5, VBool false)]);
   (VInt 22, [(1, VStr "dog"); (3, VStr "root"); (4, VBool false); (5, VBool false)]);
   (VInt 23, [(1, VStr "."); (2, VInt 99); (3, VStr "punct"); (5, VBool false)])].

(** A store with the one sentence "The dog". *)
Definition ex_store : store :=
  mkStore ex_feat_dict [(VInt 20, [(6, VStr "s1")])] (fun _ => ex_dog_words).

End ConlluWriter.

(* ===================================================================== *)
(** * [Importer]: the batch driver                                        *)
(* ===================================================================== *)

Module Importer.
Import Py.

(** A line of the log: [logger.info("Read '<pth>' in <t> seconds.")] or
    [logger.error("Import of '<pth>' failed.")].  The elapsed time [t] is
    read from the clock and is left out. *)
Inductive log_line : Type :=
| LogInfo (pth : string)
| LogError (pth : string).

Section Run.

(** The store that the reader writes to. *)
Variable db : Type.

(** A reader of [ALL_READERS], by its [read] method, which is outside the
    modelled sources: from a path and the store, the store afterwards and
    the exception raised, if any. *)
Definition reader : Type := string -> db -> db * option exn.

Variable ALL_READERS : string -> option reader.

(** What a run leaves behind: the store, the log, and the paths on which
    [read] was called, in order. *)
Record trace : Type := mkTrace {
  tstore : db;
  tlog : list log_line;
  treads : list string
}.

(** Lines 19-25. *)
Fixpoint loop (r : reader) (infiles : list string) (t : trace) : trace * option exn :=
  match infiles with
  | [] => (t, None)
  | pth :: rest =>
      match r pth (tstore t) with
      | (d, None) =>
          loop r rest (mkTrace d (tlog t ++ [LogInfo pth])%list (treads t ++ [pth])%list)
      | (d, Some (ReaderError _)) =>
          loop r rest (mkTrace d (tlog t ++ [LogError pth])%list (treads t ++ [pth])%list)
      | (d, Some e) =>
          (mkTrace d (tlog t) (treads t ++ [pth])%list, Some e)
      end
  end.

(** [run]. *)
Definition run (mode : string) (infiles : list string) (d : db) : trace * option exn :=
  match ALL_READERS mode with
  | None => (mkTrace d [] [], Some (ValueError ("Unknown reader " ++ mode ++ ".")))
  | Some r => loop r infiles (mkTrace d [] [])
  end.

End Run.

Arguments mkTrace {db}.
Arguments tstore {db}.
Arguments tlog {db}.
Arguments treads {db}.
Arguments loop {db}.
Arguments run {db}.

(** ** A reader for the examples

    It passes the lines of a file to [process_line], one after the other,
    and adds the calls to the store.  The files are those of a directory
    of three files, the second of which has a row of nine columns. *)

Definition ex_files (pth : string) : list string :=
  if String.eqb pth "bad.conllu"
  then [ConnluReader.row ["1"; "The"; "the"; "DET"; "_"; "_"; "2"; "det"; "_"]]
  else [ConnluReader.row ["1"; "dog"; "dog"; "NOUN"; "_"; "_"; "0"; "root"; "_"; "_"]].

Definition ex_reader : reader (list ConnluReader.call) :=
  fun pth d =>
    match ConnluReader.for_each (ex_files pth) ConnluReader.process_line
            ConnluReader.reset with
    | (_, tr, inl e) => ((d ++ tr)%list, Some e)
    | (_, tr, inr _) => ((d ++ tr)%list, None)
    end.

Definition ex_readers (mode : string) : option (reader (list ConnluReader.call)) :=
  if String.eqb mode "conllu" then Some ex_reader else None.

(** An exception that [except ReaderError] does not catch. *)
Definition not_caught (e : exn) : bool :=
  match e with ReaderError _ => false | _ => true end.

(** The line that the loop logs for a file, from what its [read] raised:
    none when the exception is not caught. *)
Definition log_of (pth : string) (o : option exn) : option log_line :=
  match o with
  | None => Some (LogInfo pth)
  | Some (ReaderError _) => Some (LogError pth)
  | Some _ => None
  end.

(** The store that the first [i] files of a run leave. *)
Definition store_before {db : Type} (r : reader db) (infiles : list string)
    (d : db) (i : nat) : db :=
  tstore (fst (loop r (firstn i infiles) (mkTrace d [] []))).

(** A directory of three well-formed files; the second has a row with a
    DEPS column. *)
Definition ex_files_deps (pth : string) : list string :=
  if String.eqb pth "deps.conllu"
  then [ConnluReader.row ["1"; "dogs"; "dog"; "NOUN"; "_"; "_"; "2"; "nsubj"; "2:nsubj"; "_"]]
  else [ConnluReader.row ["1"; "dog"; "dog"; "NOUN"; "_"; "_"; "0"; "root"; "_"; "_"]].

Definition ex_reader_deps : reader (list ConnluReader.call) :=
  fun pth d =>
    match ConnluReader.for_each (ex_files_deps pth) ConnluReader.process_line
            ConnluReader.reset with
    | (_, tr, inl e) => ((d ++ tr)%list, Some e)
    | (_, tr, inr _) => ((d ++ tr)%list, None)
    end.

Definition ex_readers_deps (mode : string)
  : option (reader (list ConnluReader.call)) :=
  if String.eqb mode "conllu" then Some ex_reader_deps else None.

End Importer.

(* ===================================================================== *)
(** * Properties of the decoder                                           *)
(* ===================================================================== *)

Module ReaderFacts.
Import Py ConnluReader.

(** ** What a method body emits and raises *)

Lemma bind_ret_l {A B} (x : A) (k : A -> M B) st : bind (ret x) k st = k x st.
Proof.
  unfold bind, ret. destruct (k x st) as [[st2 tr2] r]. reflexivity.
Qed.

Lemma calls_bind {A B} (m : M A) (k : A -> M B) st :
  calls (bind m k) st =
  (calls m st ++ match result m st with
                 | inl _ => []
                 | inr x => calls (k x) (final m st)
                 end)%list.
Proof.
  unfold calls, result, final, bind.
  destruct (m st) as [[st1 tr1] [e|x]]; simpl.
  - now rewrite app_nil_r.
  - destruct (k x st1) as [[st2 tr2] r]. reflexivity.
Qed.

Lemma result_bind {A B} (m : M A) (k : A -> M B) st :
  result (bind m k) st =
  match result m st with
  | inl e => inl e
  | inr x => result (k x) (final m st)
  end.
Proof.
  unfold result, final, bind.
  destruct (m st) as [[st1 tr1] [e|x]]; simpl; auto.
  destruct (k x st1) as [[st2 tr2] r]. reflexivity.
Qed.

Lemma emits_ret {A} P (x : A) : emits P (ret x).
Proof. intros st. constructor. Qed.

Lemma emits_raise {A} P e : emits P (@raise A e).
Proof. intros st. constructor. Qed.

Lemma emits_emit P c : P c -> emits P (emit c).
Proof. intros H st. repeat constructor. exact H. Qed.

Lemma emits_bind {A B} P (m : M A) (k : A -> M B) :
  emits P m -> (forall x, emits P (k x)) -> emits P (bind m k).
Proof.
  intros Hm Hk st. rewrite calls_bind. apply Forall_app. split.
  - apply Hm.
  - destruct (result m st); [constructor | apply Hk].
Qed.

Lemma emits_for_each {A} P (l : list A) body :
  (forall x, emits P (body x)) -> emits P (for_each l body).
Proof.
  intros Hb. induction l as [|x r IH]; simpl.
  - apply emits_ret.
  - apply emits_bind; auto.
Qed.

Lemma emits_lift {A} P (r : exn + A) : emits P (lift r).
Proof. destruct r; [apply emits_raise | apply emits_ret]. Qed.

Lemma emits_getitem P l i : emits P (getitem l i).
Proof.
  unfold getitem. destruct (nth_error l i); [apply emits_ret | apply emits_raise].
Qed.

Lemma emits_unpack2 P l : emits P (unpack2 l).
Proof.
  destruct l as [|a [|b [|c r]]]; simpl;
    first [apply emits_ret | apply emits_raise].
Qed.

Lemma emits_incr_token_idx P : emits P incr_token_idx.
Proof. intros st. constructor. Qed.

Lemma emits_incr_word_idx P : emits P incr_word_idx.
Proof. intros st. constructor. Qed.

Lemma emits_incr_edep_count P : emits P incr_edep_count.
Proof. intros st. constructor. Qed.

Lemma emits_if {A} P (b : bool) (m1 m2 : M A) :
  emits P m1 -> emits P m2 -> emits P (if b then m1 else m2).
Proof. destruct b; auto. Qed.

Lemma raises_ret {A} Q (x : A) : raises Q (ret x).
Proof. intros st e H. discriminate H. Qed.

Lemma raises_raise {A} (Q : exn -> Prop) e : Q e -> raises Q (@raise A e).
Proof. intros H st e' E. inversion E. subst. exact H. Qed.

Lemma raises_emit Q c : raises Q (emit c).
Proof. intros st e H. discriminate H. Qed.

Lemma raises_bind {A B} Q (m : M A) (k : A -> M B) :
  raises Q m -> (forall x, raises Q (k x)) -> raises Q (bind m k).
Proof.
  intros Hm Hk st e. rewrite result_bind.
  destruct (result m st) eqn:E.
  - intros H. inversion H. subst. eapply Hm. exact E.
  - apply Hk.
Qed.

Lemma raises_for_each {A} Q (l : list A) body :
  (forall x, raises Q (body x)) -> raises Q (for_each l body).
Proof.
  intros Hb. induction l as [|x r IH]; simpl.
  - apply raises_ret.
  - apply raises_bind; auto.
Qed.

Lemma raises_if {A} Q (b : bool) (m1 m2 : M A) :
  raises Q m1 -> raises Q m2 -> raises Q (if b then m1 else m2).
Proof. destruct b; auto. Qed.

Lemma raises_incr_token_idx Q : raises Q incr_token_idx.
Proof. intros st e H. discriminate H. Qed.

Lemma raises_incr_word_idx Q : raises Q incr_word_idx.
Proof. intros st e H. discriminate H. Qed.

Lemma raises_incr_edep_count Q : raises Q incr_edep_count.
Proof. intros st e H. discriminate H. Qed.

Lemma bind_raise {A B} e (k : A -> M B) st : bind (raise e) k st = raise e st.
Proof. reflexivity. Qed.

Lemma emits_weaken {A} (P Q : call -> Prop) (m : M A) :
  (forall c, P c -> Q c) -> emits P m -> emits Q m.
Proof.
  intros H Hm st. eapply Forall_impl; [exact H | apply Hm].
Qed.

Lemma emits_ext {A} P (m m' : M A) :
  (forall st, m st = m' st) -> emits P m' -> emits P m.
Proof.
  intros E H st. unfold calls. rewrite E. apply H.
Qed.

Lemma raises_ext {A} Q (m m' : M A) :
  (forall st, m st = m' st) -> raises Q m' -> raises Q m.
Proof.
  intros E H st e. unfold result. rewrite E. apply H.
Qed.

Lemma raises_lift {A} (Q : exn -> Prop) (r : exn + A) :
  (forall e, r = inl e -> Q e) -> raises Q (lift r).
Proof.
  intros H. destruct r as [e|x]; [apply raises_raise; auto | apply raises_ret].
Qed.

Lemma raises_getitem (Q : exn -> Prop) l i : Q IndexError -> raises Q (getitem l i).
Proof.
  intros H. unfold getitem.
  destruct (nth_error l i); [apply raises_ret | now apply raises_raise].
Qed.

Lemma raises_unpack2 (Q : exn -> Prop) l :
  (forall m, Q (ValueError m)) -> raises Q (unpack2 l).
Proof.
  intros H. destruct l as [|a [|b [|c r]]]; simpl;
    first [apply raises_ret | apply raises_raise; apply H].
Qed.

(** ** The phases of a row *)

Lemma process_row_ten line st :
  length (split tab (strip line)) = 10%nat ->
  process_row line st = row_body (split tab (strip line)) st.
Proof.
  intros H. unfold process_row. rewrite H. simpl negb. cbv iota.
  rewrite bind_ret_l. reflexivity.
Qed.

Lemma process_row_not_ten line st :
  length (split tab (strip line)) <> 10%nat ->
  process_row line st =
  (st, [], inl (column_count_error
                  (str_int (Z.of_nat (length (split tab (strip line))))))).
Proof.
  intros H. unfold process_row.
  destruct (Nat.eqb_spec (length (split tab (strip line))) 10) as [E|E];
    [contradiction|].
  reflexivity.
Qed.

Lemma process_line_row line :
  is_empty line = false -> is_comment line = false ->
  process_line line = process_row line.
Proof.
  destruct line as [|c r]; simpl; [discriminate|].
  intros _ H. rewrite H. reflexivity.
Qed.

(** The pairs of the DEPS column never reach [set_feature]. *)
Lemma process_dep_unfold name pair st :
  process_dep name pair st =
  ((if negb (contains ":"%char pair)
    then error ("Invalid dependency specifier '" ++ pair ++ "'.")
    else ret tt) ;;
   n <- incr_edep_count ;;
   set_type (String tab (str_int n)) "UD-edep" ;;
   set_parent (String tab (str_int n)) "sentence" ;;
   hr <- unpack2 (split1 ":"%char pair) ;;
   raise (NameError "h")) st.
Proof. reflexivity. Qed.

Lemma emits_process_dep (P : call -> Prop) name pair :
  (forall n t, P (CSetType n t)) -> (forall n t, P (CSetParent n t)) ->
  emits P (process_dep name pair).
Proof.
  intros H1 H2. eapply emits_ext; [apply process_dep_unfold|].
  apply emits_bind; [apply emits_if; [apply emits_raise | apply emits_ret]|].
  intros _. apply emits_bind; [apply emits_incr_edep_count|].
  intros n. apply emits_bind; [apply emits_emit, H1|].
  intros _. apply emits_bind; [apply emits_emit, H2|].
  intros _. apply emits_bind; [apply emits_unpack2|].
  intros hr. apply emits_raise.
Qed.

Lemma emits_process_deps (P : call -> Prop) name columns :
  (forall n t, P (CSetType n t)) -> (forall n t, P (CSetParent n t)) ->
  emits P (process_deps name columns).
Proof.
  intros H1 H2. unfold process_deps.
  apply emits_bind; [apply emits_getitem|].
  intros c8. apply emits_if; [|apply emits_ret].
  apply emits_for_each. intros pair. now apply emits_process_dep.
Qed.

Lemma process_dep_raises name pair st :
  exists e, result (process_dep name pair) st = inl e.
Proof.
  unfold result. rewrite process_dep_unfold.
  unfold bind, error, raise, ret, incr_edep_count, set_type, set_parent, emit.
  destruct (contains ":"%char pair); simpl; [|eauto].
  destruct (split1 ":"%char pair) as [|a [|b [|c r]]]; simpl; eauto.
Qed.

(** ** Automation for the phases *)

Ltac emits_step :=
  first
    [ apply emits_ret | apply emits_raise | apply emits_getitem
    | apply emits_unpack2 | apply emits_lift
    | apply emits_incr_token_idx | apply emits_incr_word_idx
    | apply emits_incr_edep_count
    | apply emits_bind; [|intros ?]
    | apply emits_for_each; intros ?
    | apply emits_if
    | apply emits_emit ].

Ltac raises_step :=
  first
    [ apply raises_ret | apply raises_emit
    | apply raises_incr_token_idx | apply raises_incr_word_idx
    | apply raises_incr_edep_count
    | apply raises_bind; [|intros ?]
    | apply raises_for_each; intros ?
    | apply raises_if
    | apply raises_getitem | apply raises_unpack2
    | apply raises_lift; intros ? ?
    | apply raises_raise ].

Lemma int_raises_ValueError s e : int s = inl e -> exists m, e = ValueError m.
Proof.
  unfold int. destruct (int_max_str_digits <? digit_run s);
    [|destruct (int_digits 0 s)]; intros H; inversion H; eauto.
Qed.

Lemma raises_row_body columns : raises not_expected (row_body columns).
Proof.
  unfold row_body, declare_unit, process_groups, process_columns,
    process_deps, process_pair, error.
  apply raises_bind; [apply raises_getitem; exact I|intros name].
  repeat (apply raises_bind; [|intros ?]).
  all: try (simpl for_each).
  all: repeat raises_step.
  all: try exact I.
  all: try (intros; exact I).
  all: try reflexivity.
  all: try (match goal with
            | H : int _ = inl _ |- _ =>
                apply int_raises_ValueError in H; destruct H; subst; exact I
            end).
Qed.

Lemma emits_if_eqn {A} P (b : bool) (m1 m2 : M A) :
  (b = true -> emits P m1) -> (b = false -> emits P m2) ->
  emits P (if b then m1 else m2).
Proof. destruct b; auto. Qed.

Ltac emits_step_eqn :=
  first
    [ apply emits_ret | apply emits_raise | apply emits_getitem
    | apply emits_unpack2 | apply emits_lift
    | apply emits_incr_token_idx | apply emits_incr_word_idx
    | apply emits_incr_edep_count
    | apply emits_bind; [|intros ?]
    | apply emits_for_each; intros ?
    | apply emits_if_eqn; intros ?
    | apply emits_emit ].

(** No call of a row sets [UD:head] to zero. *)
Lemma emits_row_body_head columns :
  emits (fun c => head_zero c = false) (row_body columns).
Proof.
  unfold row_body, declare_unit, process_groups, process_columns, process_pair, error.
  apply emits_bind; [apply emits_getitem|intros name].
  repeat (apply emits_bind; [|intros ?]).
  all: try (simpl for_each).
  all: try (apply emits_process_deps; reflexivity).
  all: repeat emits_step_eqn.
  all: try reflexivity.
  all: simpl.
  all: repeat match goal with
         | H : negb _ = true |- _ => apply negb_true_iff in H
         end.
  all: try match goal with
         | H : String.eqb ?c "0" = false |- context [String.eqb ?c "0"] =>
             rewrite H
         end.
  all: try reflexivity.
  all: try (simpl in *; discriminate).
Qed.

Lemma emits_process_comment line :
  emits (fun c => head_zero c = true ->
                  c = CSetFeature "sentence" "UD" "head" "str" (VStr "0"))
        (process_comment line).
Proof.
  unfold process_comment.
  apply emits_if; [|apply emits_ret].
  apply emits_bind; [apply emits_unpack2|intros kv].
  apply emits_emit. simpl.
  rewrite orb_false_r. intros H.
  apply andb_true_iff in H. destruct H as [H1 H2].
  apply String.eqb_eq in H1, H2. rewrite H1, H2. reflexivity.
Qed.

(** The relations of a row are those of its unit. *)
Lemma relations_app a b : relations (a ++ b) = (relations a ++ relations b)%list.
Proof. unfold relations. apply flat_map_app. Qed.

Lemma relations_none tr :
  Forall (fun c => is_relation c = false) tr -> relations tr = [].
Proof.
  induction 1 as [|c r Hc _ IH]; [reflexivity|].
  simpl. rewrite IH. destruct c; simpl in *; try reflexivity; discriminate.
Qed.

End ReaderFacts.

(* ===================================================================== *)
(** * The claims about the decoder                                        *)
(* ===================================================================== *)

Import Py ConnluReader ReaderFacts.

(** C1.  For a pair of the DEPS column the decoder is to create a
    [UD-edep] node, parent it to the sentence and set the features
    [parent], [child] and [deprel] on it.  The code creates the node and
    its parent edge and then reads the unbound name [h]: on the row of
    word 3 with DEPS [2:nsubj|4:obj] it raises [NameError] after the type
    and parent of the first node, no pair of any DEPS column is processed
    to its end, and the DEPS column never sets a feature. *)
Theorem C1_deps_parent_is_unbound_name :
  process_line
    (row ["3"; "c"; "_"; "_"; "_"; "_"; "_"; "_"; "2:nsubj|4:obj"; "_"]) reset
  = (mkCounters 1 0 1,
     [CSetType "3" "word"; CSetParent "3" "sentence";
      CSetFeature "3" "UD" "id" "str" (VStr "3");
      CSetFeature "3" "meta" "index" "int" (VInt 1);
      CSetFeature "3" "UD" "null" "bool" (VBool false);
      CSetFeature "3" "UD" "form" "str" (VStr "c");
      CSetType (String tab "1") "UD-edep";
      CSetParent (String tab "1") "sentence"],
     inl (NameError "h"))
  /\ (forall name pair st, exists e, result (process_dep name pair) st = inl e)
  /\ (forall name columns st,
        forallb (fun c => negb (is_set_feature c))
                (calls (process_deps name columns) st) = true).
Proof.
  split; [vm_compute; reflexivity|]. split.
  - apply process_dep_raises.
  - intros name columns st. apply forallb_forall.
    apply Forall_forall.
    apply (emits_process_deps (fun c => negb (is_set_feature c) = true));
      reflexivity.
Qed.

(** C2, the claim as stated fails: the comment line [# head = 0] gives the
    sentence node the feature [UD:head] with value 0. *)
Lemma C2_comment_stores_head_zero :
  In (CSetFeature "sentence" "UD" "head" "str" (VStr "0"))
     (calls (process_line "# head = 0") reset)
  /\ existsb head_zero (calls (process_line "# head = 0") reset) = true.
Proof. split; vm_compute; auto. Qed.

(** C2, amended.  Over all lines and all counters, the only call that
    stores [UD:head] with value 0 is the string feature that a comment
    line [# head = 0] puts on the sentence node: no reference feature
    [UD:head] is 0 and no annotation row stores a [UD:head] that is 0.
    For an annotation row of ten columns, column 6 sets no [UD:head] when
    it is [_] or [0], and otherwise sets it once, as a reference feature
    whose value is the string of the column. *)
Theorem C2_head_zero_never_a_reference :
  (forall line st,
     Forall (fun c => head_zero c = true ->
                      c = CSetFeature "sentence" "UD" "head" "str" (VStr "0"))
            (calls (process_line line) st))
  /\ (forall name c0 c1 c2 c3 c4 c5 c6 c7 c8 c9 st,
        filter is_head
          (calls (process_columns name [c0; c1; c2; c3; c4; c5; c6; c7; c8; c9]) st)
        = if String.eqb c6 "_" || String.eqb c6 "0" then []
          else [CSetFeature name "UD" "head" "ref" (VStr c6)]).
Proof.
  split.
  - intros line st. destruct line as [|c r]; [constructor|].
    unfold process_line.
    destruct (Ascii.eqb c "#"%char).
    + apply emits_process_comment.
    + unfold calls, process_row.
      destruct (Nat.eqb_spec (length (split tab (strip (String c r)))) 10) as [E|E].
      * simpl negb. cbv iota. rewrite bind_ret_l.
        eapply Forall_impl; [|apply emits_row_body_head].
        intros a Ha Hb. congruence.
      * simpl. constructor.
  - intros. unfold process_columns, col_names, calls. simpl for_each.
    unfold bind, getitem, set_feature, emit, ret. simpl.
    destruct (String.eqb c1 "_"), (String.eqb c2 "_"), (String.eqb c3 "_"),
      (String.eqb c4 "_"), (String.eqb c6 "_"), (String.eqb c7 "_"); simpl;
      try reflexivity; destruct (String.eqb c6 "0"); reflexivity.
Qed.

(** C3, the claim as stated fails: a row of ten columns followed by a tab
    splits into eleven tab-separated columns, and the decoder accepts it,
    because it strips the line before it splits it. *)
Lemma C3_trailing_tab_is_accepted :
  let line :=
    row ["1"; "The"; "the"; "DET"; "_"; "_"; "0"; "root"; "_"; "_"; ""] in
  is_empty line = false /\ is_comment line = false
  /\ length (split tab line) = 11%nat
  /\ process_line line reset
     = (mkCounters 1 0 0,
        [CSetType "1" "word"; CSetParent "1" "sentence";
         CSetFeature "1" "UD" "id" "str" (VStr "1");
         CSetFeature "1" "meta" "index" "int" (VInt 1);
         CSetFeature "1" "UD" "null" "bool" (VBool false);
         CSetFeature "1" "UD" "form" "str" (VStr "The");
         CSetFeature "1" "UD" "lemma" "str" (VStr "the");
         CSetFeature "1" "UD" "upos" "str" (VStr "DET");
         CSetFeature "1" "UD" "deprel" "str" (VStr "root")],
        inr tt).
Proof. vm_compute. auto. Qed.

(** C3, amended.  For a line that is neither blank nor a comment, let [n]
    be the number of tab-separated columns of the line stripped of the
    white space around it.  The decoder raises the column-count error if
    and only if [n] is not 10; it then raises it before any call on the
    store, and the message gives [n].  (A row of ten columns can still
    raise one of the two other decode errors.) *)
Theorem C3_column_count_of_stripped_line (line : string) (st : counters) :
  is_empty line = false -> is_comment line = false ->
  let n := length (split tab (strip line)) in
  ((exists found, result (process_line line) st = inl (column_count_error found))
   <-> n <> 10%nat)
  /\ (n <> 10%nat ->
      process_line line st
      = (st, [], inl (column_count_error (str_int (Z.of_nat n))))).
Proof.
  intros Hb Hc n. rewrite (process_line_row line Hb Hc). split.
  - split.
    + intros [found H] E. unfold result in H.
      rewrite (process_row_ten line st E) in H.
      apply (raises_row_body _ st) in H. simpl in H. discriminate H.
    + intros E. exists (str_int (Z.of_nat n)). unfold result.
      rewrite (process_row_not_ten line st E). reflexivity.
  - intros E. apply (process_row_not_ten line st E).
Qed.

Lemma C3_column_count_of_stripped_line_witness :
  process_line (row ["1"; "The"; "the"; "DET"; "_"; "_"; "0"; "root"; "_"]) reset
  = (reset, [], inl (column_count_error "9"))
  /\ process_line
       (row ["1"; "The"; "the"; "DET"; "_"; "_"; "0"; "root"; "_"; "_"; "x"]) reset
     = (reset, [], inl (column_count_error "11")).
Proof.
  split.
  - apply (proj2 (C3_column_count_of_stripped_line
             (row ["1"; "The"; "the"; "DET"; "_"; "_"; "0"; "root"; "_"]) reset
             eq_refl eq_refl)).
    vm_compute. discriminate.
  - apply (proj2 (C3_column_count_of_stripped_line
             (row ["1"; "The"; "the"; "DET"; "_"; "_"; "0"; "root"; "_"; "_"; "x"])
             reset eq_refl eq_refl)).
    vm_compute. discriminate.
Defined.

(** C4.  The key [SpaceAfter] is to be a boolean in MISC only, and a
    string feature in [UD/FEATS], as the docstring of the class says.  The
    code turns it into a boolean in both columns: the row with FEATS
    [SpaceAfter=No] stores the boolean false in [UD/FEATS], and so does the
    pair [SpaceAfter=v] in any group. *)
Theorem C4_feats_SpaceAfter_is_stored_as_bool :
  process_line
    (row ["1"; "x"; "_"; "_"; "_"; "SpaceAfter=No"; "_"; "_"; "_"; "_"]) reset
  = (mkCounters 1 0 0,
     [CSetType "1" "word"; CSetParent "1" "sentence";
      CSetFeature "1" "UD" "id" "str" (VStr "1");
      CSetFeature "1" "meta" "index" "int" (VInt 1);
      CSetFeature "1" "UD" "null" "bool" (VBool false);
      CSetFeature "1" "UD/FEATS" "SpaceAfter" "bool" (VBool false);
      CSetFeature "1" "UD" "form" "str" (VStr "x")],
     inr tt)
  /\ (forall name group v st,
        process_pair name group ("SpaceAfter=" ++ v) st
        = (st, [CSetFeature name group "SpaceAfter" "bool"
                  (VBool (negb (String.eqb v "No")))], inr tt)).
Proof.
  split; [vm_compute; reflexivity|].
  intros. reflexivity.
Qed.

(** ** Tokens and their relations *)

Lemma split1_contains c s :
  contains c s = true -> exists a b, split1 c s = [a; b].
Proof.
  induction s as [|d r IH]; simpl; [discriminate|].
  destruct (Ascii.eqb d c); [eauto|].
  intros H. destruct (IH H) as (a & b & E). rewrite E. eauto.
Qed.

Lemma int_digits_all_digits s : forall acc z,
  int_digits acc s = Some z -> all_chars is_ascii_digit s = true.
Proof.
  induction s as [|c r IH]; simpl; intros acc z H; [reflexivity|].
  destruct (is_ascii_digit c); [|discriminate]. simpl. eapply IH. exact H.
Qed.

Lemma all_chars_impl (p q : ascii -> bool) s :
  (forall c, p c = true -> q c = true) ->
  all_chars p s = true -> all_chars q s = true.
Proof.
  intros H. induction s as [|c r IH]; simpl; [reflexivity|].
  intros E. apply andb_true_iff in E. destruct E as [E1 E2].
  rewrite (H c E1), (IH E2). reflexivity.
Qed.

Lemma numeric_some s z :
  numeric s = Some z -> isdigit s = true /\ int s = inr z.
Proof.
  unfold numeric, decimal, isdigit, int.
  destruct (int_max_str_digits <? digit_run s); [discriminate|].
  destruct (is_empty s); [discriminate|].
  intros H. rewrite H. split; [|reflexivity]. simpl.
  apply all_chars_impl with (p := is_ascii_digit).
  - intros c Hc. unfold isdigit_char. rewrite Hc. reflexivity.
  - eapply int_digits_all_digits. exact H.
Qed.

Lemma numeric_none s :
  numeric s = None -> isdigit s = false \/ exists e, int s = inl e.
Proof.
  unfold numeric, decimal, isdigit, int.
  destruct (int_max_str_digits <? digit_run s); [right; eauto|].
  destruct (is_empty s); [left; reflexivity|].
  intros H. rewrite H. right. eauto.
Qed.

Lemma for_each_add_relation (f : Z -> string) name l st :
  for_each l (fun ch => add_relation (f ch) name) st
  = (st, map (fun ch => CAddRelation (f ch) name) l, inr tt).
Proof.
  induction l as [|x r IH]; [reflexivity|].
  simpl. unfold bind at 1. unfold add_relation at 1, emit at 1.
  rewrite IH. reflexivity.
Qed.

Lemma relations_map_add (f : Z -> string) name l :
  relations (map (fun ch => CAddRelation (f ch) name) l)
  = map (fun ch => (f ch, name)) l.
Proof.
  induction l as [|x r IH]; [reflexivity|]. simpl. f_equal. exact IH.
Qed.

(** The calls of lines 71-82 for an id that contains a hyphen. *)
Lemma declare_unit_token name st :
  contains "-"%char name = true ->
  exists a b,
    split1 "-"%char name = [a; b]
    /\ calls (declare_unit name) st
       = ([CSetType name "token"; CSetParent name "sentence";
           CSetFeature name "UD" "id" "str" (VStr name);
           CSetFeature name "meta" "index" "int" (VInt (token_idx st + 1))]
          ++ map (fun ch => CAddRelation (str_int ch) name)
               match numeric a, numeric b with
               | Some lo, Some hi => range lo (hi + 1)
               | _, _ => []
               end)%list.
Proof.
  intros H. destruct (split1_contains _ _ H) as (a & b & E).
  exists a, b. split; [exact E|].
  unfold declare_unit, calls. rewrite H, E.
  unfold bind at 1 2 3 4 5 6. simpl.
  destruct (numeric a) as [lo|] eqn:Na.
  - destruct (numeric_some _ _ Na) as [Da Ia]. rewrite Da, Ia.
    destruct (numeric b) as [hi|] eqn:Nb.
    + destruct (numeric_some _ _ Nb) as [Db Ib]. rewrite Db, Ib. simpl.
      unfold bind, ret. rewrite for_each_add_relation. reflexivity.
    + destruct (numeric_none _ Nb) as [Db|[e Ib]].
      * rewrite Db. reflexivity.
      * rewrite Ib. destruct (isdigit b); reflexivity.
  - destruct (numeric_none _ Na) as [Da|[e Ia]].
    + rewrite Da. reflexivity.
    + rewrite Ia. destruct (isdigit a && isdigit b); reflexivity.
Qed.

Lemma emits_after_unit_no_relation name columns :
  emits (fun c => is_relation c = false)
    (process_groups name columns ;; process_columns name columns ;;
     process_deps name columns).
Proof.
  unfold process_groups, process_columns, process_pair, error.
  repeat (apply emits_bind; [|intros ?]).
  all: try (simpl for_each).
  all: try (apply emits_process_deps; reflexivity).
  all: repeat emits_step.
  all: reflexivity.
Qed.

(** ** [str] of a number and the number of a string *)










(* ===================================================================== *)
(** * Properties of the encoder                                           *)
(* ===================================================================== *)

Module WriterFacts.
Import Py ConlluWriter.






(** ** The features of one word *)





(** ** One word *)

Lemma cell_row0 widx : cell (VStr widx :: repeat (VStr "_") 9) 6 = VStr "_".
Proof. reflexivity. Qed.





(** ** [==] is an equivalence, and the mapping from ids to positions *)






(** ** Positions are never the placeholder *)

Lemma string_of_uint_head d :
  d <> Decimal.Nil -> underscore_free (NilEmpty.string_of_uint d).
Proof. destruct d; simpl; congruence. Qed.





(** ** The pass over the words *)









(** ** The deferred heads and the root *)







End WriterFacts.

(* ===================================================================== *)
(** * The claims about the encoder                                        *)
(* ===================================================================== *)

Import ConlluWriter WriterFacts.

(** The text that [write] produces for the example store. *)
Example write_ex_store :
  write ex_store
  = ([ "# sent_id = s1" ++ nl;
       join (String tab EmptyString)
         ["1"; "The"; "_"; "_"; "_"; "_"; "2"; "det"; "_"; "_"] ++ nl
       ++ join (String tab EmptyString)
            ["2"; "dog"; "_"; "_"; "_"; "_"; "0"; "root"; "_"; "SpaceAfter=No"] ++ nl
       ++ join (String tab EmptyString)
            ["3"; "."; "_"; "_"; "_"; "_"; "_"; "punct"; "_"; "_"] ++ nl ++ nl ],
     None).
Proof. vm_compute. reflexivity. Qed.





(* ===================================================================== *)
(** * The claim about the importer                                        *)
(* ===================================================================== *)

Module ImporterFacts.
Import Py Importer.

Section Loop.

Context {db : Type} (r : reader db).

Lemma loop_app a : forall b t,
  loop r (a ++ b) t
  = match loop r a t with
    | (t1, None) => loop r b t1
    | (t1, Some e) => (t1, Some e)
    end.
Proof.
  induction a as [|pth rest IH]; simpl; intros b t; [reflexivity|].
  destruct (r pth (tstore t)) as [d [e|]].
  - destruct e; try reflexivity. apply IH.
  - apply IH.
Qed.

(** The log only grows. *)
Lemma loop_log l : forall t t' o,
  loop r l t = (t', o) -> exists ls, tlog t' = (tlog t ++ ls)%list.
Proof.
  induction l as [|pth rest IH]; simpl; intros t t' o H.
  - inversion H. exists []. now rewrite app_nil_r.
  - destruct (r pth (tstore t)) as [d [e|]].
    + destruct e;
        try (inversion H; exists []; simpl; now rewrite app_nil_r).
      apply IH in H. destruct H as [ls H]. simpl in H.
      exists (LogError pth :: ls). rewrite H, <- app_assoc. reflexivity.
    + apply IH in H. destruct H as [ls H]. simpl in H.
      exists (LogInfo pth :: ls). rewrite H, <- app_assoc. reflexivity.
Qed.

(** When [read] raises nothing but [ReaderError] on the files, the loop
    reads all of them and logs one line for each. *)
Lemma loop_completes l :
  (forall pth d0 e, In pth l -> snd (r pth d0) = Some e ->
                    exists msg, e = ReaderError msg) ->
  forall t, exists t',
    loop r l t = (t', None)
    /\ treads t' = (treads t ++ l)%list
    /\ length (tlog t') = (length (tlog t) + length l)%nat.
Proof.
  induction l as [|pth rest IH]; intros H t.
  - exists t. simpl. rewrite app_nil_r, Nat.add_0_r. auto.
  - simpl loop.
    assert (Hrest : forall p d0 e, In p rest -> snd (r p d0) = Some e ->
                                   exists msg, e = ReaderError msg).
    { intros p d0 e Hin. apply H. right. exact Hin. }
    pose proof (H pth (tstore t)) as Hp.
    destruct (r pth (tstore t)) as [d [e|]]; simpl in Hp.
    + destruct (Hp e (or_introl eq_refl) eq_refl) as [msg ->].
      destruct (IH Hrest (mkTrace d (tlog t ++ [LogError pth]) (treads t ++ [pth])))
        as (t' & E & R & L).
      exists t'. simpl in R, L. rewrite E, R, L, <- app_assoc, length_app.
      simpl. repeat split. lia.
    + destruct (IH Hrest (mkTrace d (tlog t ++ [LogInfo pth]) (treads t ++ [pth])))
        as (t' & E & R & L).
      exists t'. simpl in R, L. rewrite E, R, L, <- app_assoc, length_app.
      simpl. repeat split. lia.
Qed.

(** The run of the loop, file by file: what it read, what it logged
    for each file, and where it stopped. *)
Lemma loop_char l : forall t t' o,
  loop r l t = (t', o) ->
  exists n ls,
    (n <= length l)%nat
    /\ treads t' = (treads t ++ firstn n l)%list
    /\ tlog t' = (tlog t ++ ls)%list
    /\ (forall i pth, nth_error l i = Some pth -> (i < length ls)%nat ->
          nth_error ls i
          = log_of pth (snd (r pth (tstore (fst (loop r (firstn i l) t))))))
    /\ match o with
       | None => n = length l /\ length ls = n
       | Some e =>
           not_caught e = true /\ (0 < n)%nat /\ length ls = pred n
           /\ exists pth,
                nth_error l (pred n) = Some pth
                /\ snd (r pth (tstore (fst (loop r (firstn (pred n) l) t))))
                   = Some e
       end.
Proof.
  induction l as [|pth rest IH]; intros t t' o H.
  - simpl in H. inversion H; subst. exists 0%nat, []. simpl.
    rewrite !app_nil_r. repeat split; auto. intros i p _ Hi. lia.
  - simpl in H. destruct (r pth (tstore t)) as [d oe] eqn:R.
    assert (Hgo : forall line,
              log_of pth oe = Some line ->
              loop r rest (mkTrace d (tlog t ++ [line]) (treads t ++ [pth]))
              = (t', o) ->
              (forall j, loop r (firstn (S j) (pth :: rest)) t
                         = loop r (firstn j rest)
                             (mkTrace d (tlog t ++ [line]) (treads t ++ [pth]))) ->
              exists n ls,
                (n <= length (pth :: rest))%nat
                /\ treads t' = (treads t ++ firstn n (pth :: rest))%list
                /\ tlog t' = (tlog t ++ ls)%list
                /\ (forall i p, nth_error (pth :: rest) i = Some p ->
                      (i < length ls)%nat ->
                      nth_error ls i
                      = log_of p (snd (r p (tstore (fst (loop r
                                     (firstn i (pth :: rest)) t))))))
                /\ match o with
                   | None => n = length (pth :: rest) /\ length ls = n
                   | Some e =>
                       not_caught e = true /\ (0 < n)%nat /\ length ls = pred n
                       /\ exists p,
                            nth_error (pth :: rest) (pred n) = Some p
                            /\ snd (r p (tstore (fst (loop r
                                  (firstn (pred n) (pth :: rest)) t)))) = Some e
                   end).
    { intros line Hline Hloop Hstep.
      destruct (IH _ _ _ Hloop) as (n & ls & Hn & Hr & Hl & Hf & Ho).
      simpl in Hr, Hl. exists (S n), (line :: ls).
      split; [simpl; lia|]. split; [rewrite Hr, <- app_assoc; reflexivity|].
      split; [rewrite Hl, <- app_assoc; reflexivity|]. split.
      - intros [|j] p Hp Hj.
        + simpl in Hp. inversion Hp; subst p. simpl. rewrite R. simpl.
          symmetry. exact Hline.
        + simpl in Hp, Hj. rewrite Hstep. simpl nth_error.
          apply Hf; [exact Hp|lia].
      - destruct o as [e|].
        + destruct Ho as (Hc & Hpos & Hlen & p & Hp & He).
          split; [exact Hc|]. split; [lia|]. split; [simpl; lia|].
          exists p. destruct n as [|m]; [lia|]. simpl pred in *.
          split; [exact Hp|]. rewrite Hstep. exact He.
        + destruct Ho as [Hn' Hlen]. split; simpl; lia. }
    destruct oe as [e|].
    + destruct e.
      1: { apply (Hgo (LogError pth)); [reflexivity|exact H|].
           intros j. simpl. rewrite R. reflexivity. }
      all: inversion H; subst; exists 1%nat, []; simpl;
        rewrite app_nil_r;
        (split; [lia|]); (split; [reflexivity|]); (split; [reflexivity|]);
        (split; [intros i p _ Hi; lia|]);
        (split; [reflexivity|]); (split; [lia|]); (split; [reflexivity|]);
        exists pth; simpl; rewrite R; split; reflexivity.
    + apply (Hgo (LogInfo pth)); [reflexivity|exact H|].
      intros j. simpl. rewrite R. reflexivity.
Qed.

End Loop.

End ImporterFacts.

Import Importer ImporterFacts.

(** C9, the claim as stated fails.  The three files are well-formed
    CoNLL-U; the row of the second has a DEPS column, on which the decoder
    raises [NameError].  The importer does not catch it: the run ends at
    the second file with this exception, no failure is logged for it, and
    the third file is never read. *)
Lemma C9_other_exception_aborts_the_batch :
  run ex_readers_deps "conllu" ["a.conllu"; "deps.conllu"; "c.conllu"] []
  = (mkTrace
       (tstore (fst (run ex_readers_deps "conllu"
                       ["a.conllu"; "deps.conllu"; "c.conllu"] [])))
       [LogInfo "a.conllu"]
       ["a.conllu"; "deps.conllu"],
     Some (NameError "h"))
  /\ ~ In "c.conllu"
        (treads (fst (run ex_readers_deps "conllu"
                        ["a.conllu"; "deps.conllu"; "c.conllu"] []))).
Proof.
  split; [vm_compute; reflexivity|].
  vm_compute. intros [H|[H|[]]]; discriminate H.
Qed.

(** C9, amended.  With the reader of the mode known, the importer calls
    [read] on the files in the order of the list, each once, up to and
    including the first file on which [read] raises an exception that is
    not a [ReaderError], and on all of them when there is none.  Every
    file before that one has its line in the log, in order: its success,
    or its failure when its [read] raised [ReaderError], from the store
    that the files before it left; and the file after a logged file is
    read.  The run ends without an exception when every file has been
    read and logged; otherwise it ends with the exception of the last file
    read, which has no line in the log, and the files after it are not
    read. *)
Theorem C9_batch_continues_after_ReaderError_only
    {db : Type} (ALL_READERS : string -> option (reader db))
    (mode : string) (r : reader db) (infiles : list string) (d : db) :
  ALL_READERS mode = Some r ->
  exists n,
    (n <= length infiles)%nat
    /\ treads (fst (run ALL_READERS mode infiles d)) = firstn n infiles
    /\ (forall i pth,
          nth_error infiles i = Some pth ->
          (i < length (tlog (fst (run ALL_READERS mode infiles d))))%nat ->
          nth_error (tlog (fst (run ALL_READERS mode infiles d))) i
          = log_of pth (snd (r pth (store_before r infiles d i)))
          /\ nth_error (treads (fst (run ALL_READERS mode infiles d))) (S i)
             = nth_error infiles (S i))
    /\ match snd (run ALL_READERS mode infiles d) with
       | None =>
           n = length infiles
           /\ length (tlog (fst (run ALL_READERS mode infiles d))) = n
       | Some e =>
           not_caught e = true /\ (0 < n)%nat
           /\ length (tlog (fst (run ALL_READERS mode infiles d))) = pred n
           /\ exists pth,
                nth_error infiles (pred n) = Some pth
                /\ snd (r pth (store_before r infiles d (pred n))) = Some e
       end.
Proof.
  intros Hm. unfold run, store_before. rewrite Hm.
  destruct (loop r infiles (mkTrace d [] [])) as [t o] eqn:E.
  destruct (loop_char r infiles _ t o E) as (n & ls & Hn & Hr & Hl & Hf & Ho).
  simpl in Hr, Hl. subst ls. simpl fst. simpl snd.
  exists n. split; [exact Hn|]. split; [exact Hr|]. split; [|exact Ho].
  intros i pth Hp Hi. split; [apply Hf; assumption|].
  rewrite Hr. destruct o as [e|].
  - destruct Ho as (_ & Hpos & Hlen & _).
    rewrite nth_error_firstn.
    destruct (Nat.ltb_spec (S i) n); [reflexivity|lia].
  - destruct Ho as [-> _]. rewrite firstn_all. reflexivity.
Qed.

Lemma C9_batch_continues_after_ReaderError_only_witness :
  treads (fst (run ex_readers "conllu"
                 ["a.conllu"; "bad.conllu"; "c.conllu"] []))
  = ["a.conllu"; "bad.conllu"; "c.conllu"]
  /\ nth_error (tlog (fst (run ex_readers "conllu"
                             ["a.conllu"; "bad.conllu"; "c.conllu"] []))) 1
     = Some (LogError "bad.conllu")
  /\ nth_error (treads (fst (run ex_readers "conllu"
                               ["a.conllu"; "bad.conllu"; "c.conllu"] []))) 2
     = Some "c.conllu".
Proof.
  destruct (C9_batch_continues_after_ReaderError_only ex_readers "conllu"
              ex_reader ["a.conllu"; "bad.conllu"; "c.conllu"] [] eq_refl)
    as (n & Hn & Hr & Hf & Ho).
  destruct (Hf 1%nat "bad.conllu" eq_refl) as [H1 H2];
    [vm_compute; lia|].
  split; [|split; [exact H1|exact H2]].
  rewrite Hr. vm_compute in Ho. destruct Ho as [-> _]. reflexivity.
Defined.

(* ===================================================================== *)
(** * Further properties of the decoder                                   *)
(* ===================================================================== *)

Module ReaderMore.
Import Py ConnluReader ReaderFacts.

Lemma final_bind {A B} (m : M A) (k : A -> M B) st :
  final (bind m k) st =
  match result m st with
  | inl _ => final m st
  | inr x => final (k x) (final m st)
  end.
Proof.
  unfold result, final, bind.
  destruct (m st) as [[st1 tr1] [e|x]]; simpl; auto.
  destruct (k x st1) as [[st2 tr2] r]. reflexivity.
Qed.

Lemma pure_ret {A} (x : A) : pure (ret x).
Proof. intros st. reflexivity. Qed.

Lemma pure_raise {A} e : pure (@raise A e).
Proof. intros st. reflexivity. Qed.

Lemma pure_emit c : pure (emit c).
Proof. intros st. reflexivity. Qed.

Lemma pure_bind {A B} (m : M A) (k : A -> M B) :
  pure m -> (forall x, pure (k x)) -> pure (bind m k).
Proof.
  intros Hm Hk st. rewrite final_bind.
  destruct (result m st); [apply Hm|]. rewrite Hm. apply Hk.
Qed.

Lemma pure_for_each {A} (l : list A) body :
  (forall x, pure (body x)) -> pure (for_each l body).
Proof.
  intros Hb. induction l as [|x r IH]; simpl.
  - apply pure_ret.
  - apply pure_bind; auto.
Qed.

Lemma pure_if {A} (b : bool) (m1 m2 : M A) :
  pure m1 -> pure m2 -> pure (if b then m1 else m2).
Proof. destruct b; auto. Qed.

Lemma pure_lift {A} (r : exn + A) : pure (lift r).
Proof. destruct r; [apply pure_raise|apply pure_ret]. Qed.

Lemma pure_getitem l i : pure (getitem l i).
Proof.
  unfold getitem. destruct (nth_error l i); [apply pure_ret|apply pure_raise].
Qed.

Lemma pure_unpack2 l : pure (unpack2 l).
Proof.
  destruct l as [|a [|b [|c r]]]; simpl;
    first [apply pure_ret | apply pure_raise].
Qed.

Ltac pure_step :=
  first
    [ apply pure_ret | apply pure_raise | apply pure_getitem
    | apply pure_unpack2 | apply pure_lift
    | apply pure_bind; [|intros ?]
    | apply pure_for_each; intros ?
    | apply pure_if
    | apply pure_emit ].

Lemma pure_process_comment line : pure (process_comment line).
Proof. unfold process_comment. repeat pure_step. Qed.

Lemma pure_process_groups name columns : pure (process_groups name columns).
Proof.
  unfold process_groups, process_pair, error. repeat pure_step.
Qed.

Lemma pure_process_columns name columns : pure (process_columns name columns).
Proof.
  unfold process_columns. repeat pure_step.
Qed.

Lemma keeps_units_pure {A} (m : M A) : pure m -> keeps_units m.
Proof. intros H st. rewrite H. repeat split. lia. Qed.

Lemma keeps_units_bind {A B} (m : M A) (k : A -> M B) :
  keeps_units m -> (forall x, keeps_units (k x)) -> keeps_units (bind m k).
Proof.
  intros Hm Hk st. rewrite final_bind.
  destruct (result m st); [apply Hm|].
  destruct (Hm st) as (A1 & A2 & A3).
  destruct (Hk a (final m st)) as (B1 & B2 & B3).
  repeat split; try congruence. lia.
Qed.

Lemma keeps_units_for_each {A} (l : list A) body :
  (forall x, keeps_units (body x)) -> keeps_units (for_each l body).
Proof.
  intros Hb. induction l as [|x r IH]; simpl.
  - apply keeps_units_pure, pure_ret.
  - apply keeps_units_bind; auto.
Qed.

Lemma keeps_units_incr_edep_count : keeps_units incr_edep_count.
Proof. intros st. unfold final, incr_edep_count. simpl. repeat split. lia. Qed.

Lemma keeps_units_process_dep name pair : keeps_units (process_dep name pair).
Proof.
  unfold process_dep, error, unbound_name.
  apply keeps_units_bind; [apply keeps_units_pure; repeat pure_step|intros _].
  apply keeps_units_bind; [apply keeps_units_incr_edep_count|intros n].
  apply keeps_units_pure. repeat pure_step.
Qed.

Lemma keeps_units_process_deps name columns :
  keeps_units (process_deps name columns).
Proof.
  unfold process_deps.
  apply keeps_units_bind; [apply keeps_units_pure, pure_getitem|intros c8].
  destruct (negb (String.eqb c8 "_")).
  - apply keeps_units_for_each. intros pair. apply keeps_units_process_dep.
  - apply keeps_units_pure, pure_ret.
Qed.

Lemma keeps_units_after_unit name columns :
  keeps_units (process_groups name columns ;; process_columns name columns ;;
               process_deps name columns).
Proof.
  apply keeps_units_bind; [apply keeps_units_pure, pure_process_groups|intros _].
  apply keeps_units_bind; [apply keeps_units_pure, pure_process_columns|intros _].
  apply keeps_units_process_deps.
Qed.

(** The counters after lines 71-86. *)
Lemma final_declare_unit name st :
  final (declare_unit name) st
  = if contains "-"%char name
    then mkCounters (word_idx st) (token_idx st + 1) (edep_count st)
    else mkCounters (word_idx st + 1) (token_idx st) (edep_count st).
Proof.
  unfold declare_unit.
  rewrite final_bind. simpl result. cbv iota. simpl final at 1.
  rewrite final_bind. simpl result. cbv iota. simpl final at 1.
  rewrite final_bind. simpl result. cbv iota. simpl final at 1.
  destruct (contains "-"%char name).
  - rewrite final_bind. simpl result. cbv iota.
    change (final incr_token_idx st)
      with (mkCounters (word_idx st) (token_idx st + 1) (edep_count st)).
    assert (H : forall n, pure (set_feature name "meta" "index" "int" (VInt n) ;;
                               ab <- unpack2 (split1 "-"%char name) ;;
                               if isdigit (fst ab) && isdigit (snd ab)
                               then lo <- lift (int (fst ab)) ;;
                                    hi <- lift (int (snd ab)) ;;
                                    for_each (range lo (hi + 1))
                                      (fun ch => add_relation (str_int ch) name)
                               else ret tt)).
    { intros n. repeat pure_step. }
    apply H.
  - rewrite final_bind. simpl result. cbv iota.
    change (final incr_word_idx st)
      with (mkCounters (word_idx st + 1) (token_idx st) (edep_count st)).
    assert (H : forall n, pure (set_feature name "meta" "index" "int" (VInt n) ;;
                               set_feature name "UD" "null" "bool"
                                 (VBool (contains "."%char name)))).
    { intros n. repeat pure_step. }
    apply H.
Qed.

Lemma final_row_body columns st :
  let st' := final (row_body columns) st in
  (columns = [] /\ st' = st)
  \/ (exists name rest,
        columns = name :: rest
        /\ word_idx st' = (if contains "-"%char name
                           then word_idx st else word_idx st + 1)
        /\ token_idx st' = (if contains "-"%char name
                            then token_idx st + 1 else token_idx st)
        /\ edep_count st <= edep_count st').
Proof.
  cbv zeta.
  destruct columns as [|name rest]; [left; split; reflexivity|].
  right. exists name, rest. split; [reflexivity|].
  assert (E : final (row_body (name :: rest)) st
              = final (declare_unit name ;;
                       (process_groups name (name :: rest) ;;
                        process_columns name (name :: rest) ;;
                        process_deps name (name :: rest))) st).
  { unfold final, row_body.
    change (getitem (name :: rest) 0) with (@ret string name).
    rewrite bind_ret_l. reflexivity. }
  rewrite E. clear E.
  rewrite final_bind.
  pose proof (final_declare_unit name st) as Hd.
  destruct (result (declare_unit name) st).
  - rewrite Hd. destruct (contains "-"%char name); simpl; repeat split; lia.
  - destruct (keeps_units_after_unit name (name :: rest)
                (final (declare_unit name) st)) as (A1 & A2 & A3).
    rewrite A1, A2. rewrite Hd in *.
    destruct (contains "-"%char name); simpl in *; repeat split; lia.
Qed.

Lemma process_line_unit line name rest :
  is_empty line = false -> is_comment line = false ->
  split tab (strip line) = name :: rest -> length rest = 9%nat ->
  forall st,
    process_line line st
    = (declare_unit name ;;
       (process_groups name (name :: rest) ;;
        process_columns name (name :: rest) ;;
        process_deps name (name :: rest))) st.
Proof.
  intros Hb Hc Hs Hl st. rewrite (process_line_row line Hb Hc).
  rewrite process_row_ten by (rewrite Hs; simpl; lia).
  rewrite Hs. unfold row_body.
  change (getitem (name :: rest) 0) with (@ret string name).
  rewrite bind_ret_l. reflexivity.
Qed.

Lemma split1_spec c s :
  contains c s = true ->
  exists a b, split1 c s = [a; b] /\ s = a ++ String c b /\ contains c a = false.
Proof.
  induction s as [|d r IH]; simpl; [discriminate|].
  destruct (Ascii.eqb_spec d c) as [->|Hd].
  - intros _. exists EmptyString, r. auto.
  - intros H. destruct (IH H) as (a & b & E & Er & Ha). rewrite E.
    exists (String d a), b. split; [reflexivity|]. split.
    + simpl. rewrite <- Er. reflexivity.
    + simpl. destruct (Ascii.eqb_spec d c); [contradiction|exact Ha].
Qed.

(** The calls of lines 71-86 for an id without a hyphen. *)
Lemma declare_unit_word name st :
  contains "-"%char name = false ->
  declare_unit name st
  = (mkCounters (word_idx st + 1) (token_idx st) (edep_count st),
     [CSetType name "word"; CSetParent name "sentence";
      CSetFeature name "UD" "id" "str" (VStr name);
      CSetFeature name "meta" "index" "int" (VInt (word_idx st + 1));
      CSetFeature name "UD" "null" "bool" (VBool (contains "."%char name))],
     inr tt).
Proof.
  intros H. unfold declare_unit. rewrite H. reflexivity.
Qed.

End ReaderMore.

Import ReaderMore.

(** X1.  A comment line never raises and leaves the counters as they are.
    Without an equals sign it makes no call; with one, it is of the shape
    [#k=v] with no equals sign in [k], and its only call stores the
    stripped [v] as the string feature of name the stripped [k], in tier
    UD on the sentence. *)
Theorem X1_comment_line (line : string) (st : counters) :
  is_comment line = true ->
  result (process_line line) st = inr tt
  /\ final (process_line line) st = st
  /\ (contains "="%char line = false -> calls (process_line line) st = [])
  /\ (contains "="%char line = true ->
      exists k v,
        line = String "#"%char (k ++ String "="%char v)
        /\ contains "="%char k = false
        /\ calls (process_line line) st
           = [CSetFeature "sentence" "UD" (strip k) "str" (VStr (strip v))]).
Proof.
  destruct line as [|c r]; [discriminate|]. simpl is_comment. intros Hc.
  apply Ascii.eqb_eq in Hc. subst c.
  unfold process_line. simpl Ascii.eqb. cbv iota.
  unfold process_comment, calls, result, final.
  destruct (contains "="%char (String "#"%char r)) eqn:E.
  - simpl in E. destruct (split1_spec _ _ E) as (k & v & Es & Er & Hk).
    rewrite Es. simpl. repeat split; try discriminate.
    intros _. exists k, v. rewrite Er. auto.
  - simpl. repeat split; try discriminate.
Qed.

Lemma X1_comment_line_witness :
  let line := "# text = The dog = le chien " in
  is_comment line = true
  /\ result (process_line line) reset = inr tt
  /\ final (process_line line) reset = reset
  /\ (contains "="%char line = false -> calls (process_line line) reset = [])
  /\ (contains "="%char line = true ->
      exists k v,
        line = String "#"%char (k ++ String "="%char v)
        /\ contains "="%char k = false
        /\ calls (process_line line) reset
           = [CSetFeature "sentence" "UD" (strip k) "str" (VStr (strip v))]).
Proof.
  split; [reflexivity|].
  exact (X1_comment_line "# text = The dog = le chien " reset eq_refl).
Defined.

(** X2.  A row of ten columns increments exactly one counter by one, the
    token counter when its id contains a hyphen and the word counter
    otherwise, and stores the new value as [meta:index] of the unit; this
    holds whether or not a later column of the row raises. *)
Theorem X2_row_increments_one_counter
    (line : string) (st : counters) (name : string) (rest : list string) :
  is_empty line = false -> is_comment line = false ->
  split tab (strip line) = name :: rest -> length rest = 9%nat ->
  word_idx (final (process_line line) st)
  = (if contains "-"%char name then word_idx st else word_idx st + 1)
  /\ token_idx (final (process_line line) st)
     = (if contains "-"%char name then token_idx st + 1 else token_idx st)
  /\ edep_count st <= edep_count (final (process_line line) st)
  /\ In (CSetFeature name "meta" "index" "int"
           (VInt (if contains "-"%char name
                  then token_idx st + 1 else word_idx st + 1)))
        (calls (process_line line) st).
Proof.
  intros Hb Hc Hs Hl.
  assert (Hf : final (process_line line) st = final (row_body (name :: rest)) st).
  { unfold final. rewrite (process_line_row line Hb Hc).
    rewrite process_row_ten by (rewrite Hs; simpl; lia).
    rewrite Hs. reflexivity. }
  rewrite Hf.
  destruct (final_row_body (name :: rest) st)
    as [[E _]|(n & r & E & H1 & H2 & H3)]; [discriminate|].
  inversion E; subst n r.
  repeat (split; [assumption|]).
  unfold calls at 1. rewrite (process_line_unit line name rest Hb Hc Hs Hl).
  fold (calls (declare_unit name ;;
               (process_groups name (name :: rest) ;;
                process_columns name (name :: rest) ;;
                process_deps name (name :: rest))) st).
  rewrite calls_bind. apply in_or_app. left.
  destruct (contains "-"%char name) eqn:Et.
  - destruct (declare_unit_token name st Et) as (a & b & _ & Hcalls).
    rewrite Hcalls. simpl. auto.
  - unfold calls. rewrite (declare_unit_word name st Et). simpl. auto.
Qed.

Lemma X2_row_increments_one_counter_witness :
  let line := ConnluReader.row ["3-4"; "vamos"; "_"; "_"; "_"; "bad"; "_"; "_"; "_"; "_"] in
  let st := mkCounters 2 0 0 in
  word_idx (final (process_line line) st) = 2
  /\ token_idx (final (process_line line) st) = 1
  /\ edep_count st <= edep_count (final (process_line line) st)
  /\ In (CSetFeature "3-4" "meta" "index" "int" (VInt 1))
        (calls (process_line line) st).
Proof.
  exact (X2_row_increments_one_counter
           (ConnluReader.row ["3-4"; "vamos"; "_"; "_"; "_"; "bad"; "_"; "_"; "_"; "_"])
           (mkCounters 2 0 0) "3-4"
           ["vamos"; "_"; "_"; "_"; "bad"; "_"; "_"; "_"; "_"]
           eq_refl eq_refl eq_refl eq_refl).
Defined.

(** X3.  A row of ten columns whose id has no hyphen is a word: its first
    five calls declare the type [word], the sentence as parent, [UD:id],
    [meta:index] from the word counter, and [UD:null], which is true
    exactly when the id contains a dot; the row adds no relation. *)
Theorem X3_word_row
    (line : string) (st : counters) (name : string) (rest : list string) :
  is_empty line = false -> is_comment line = false ->
  split tab (strip line) = name :: rest -> length rest = 9%nat ->
  contains "-"%char name = false ->
  firstn 5 (calls (process_line line) st)
  = [CSetType name "word"; CSetParent name "sentence";
     CSetFeature name "UD" "id" "str" (VStr name);
     CSetFeature name "meta" "index" "int" (VInt (word_idx st + 1));
     CSetFeature name "UD" "null" "bool" (VBool (contains "."%char name))]
  /\ relations (calls (process_line line) st) = [].
Proof.
  intros Hb Hc Hs Hl Ht.
  unfold calls. rewrite (process_line_unit line name rest Hb Hc Hs Hl).
  fold (calls (declare_unit name ;;
               (process_groups name (name :: rest) ;;
                process_columns name (name :: rest) ;;
                process_deps name (name :: rest))) st).
  rewrite calls_bind.
  assert (H5 : calls (declare_unit name) st
               = [CSetType name "word"; CSetParent name "sentence";
                  CSetFeature name "UD" "id" "str" (VStr name);
                  CSetFeature name "meta" "index" "int" (VInt (word_idx st + 1));
                  CSetFeature name "UD" "null" "bool"
                    (VBool (contains "."%char name))]).
  { unfold calls. rewrite (declare_unit_word name st Ht). reflexivity. }
  assert (Hr : result (declare_unit name) st = inr tt).
  { unfold result. rewrite (declare_unit_word name st Ht). reflexivity. }
  rewrite H5, Hr. split; [reflexivity|].
  rewrite relations_app. simpl relations at 1.
  apply relations_none. apply emits_after_unit_no_relation.
Qed.

Lemma X3_word_row_witness :
  let line := ConnluReader.row ["8.1"; "ate"; "eat"; "VERB"; "_"; "_"; "_"; "_"; "_"; "_"] in
  firstn 5 (calls (process_line line) reset)
  = [CSetType "8.1" "word"; CSetParent "8.1" "sentence";
     CSetFeature "8.1" "UD" "id" "str" (VStr "8.1");
     CSetFeature "8.1" "meta" "index" "int" (VInt 1);
     CSetFeature "8.1" "UD" "null" "bool" (VBool true)]
  /\ relations (calls (process_line line) reset) = [].
Proof.
  exact (X3_word_row
           (ConnluReader.row ["8.1"; "ate"; "eat"; "VERB"; "_"; "_"; "_"; "_"; "_"; "_"])
           reset "8.1" ["ate"; "eat"; "VERB"; "_"; "_"; "_"; "_"; "_"; "_"]
           eq_refl eq_refl eq_refl eq_refl eq_refl).
Defined.

(** X4.  No line ever decreases a counter, and a line advances the word
    and token counters by at most one between them. *)
Theorem X4_counters_never_decrease (line : string) (st : counters) :
  word_idx st <= word_idx (final (process_line line) st)
  /\ token_idx st <= token_idx (final (process_line line) st)
  /\ edep_count st <= edep_count (final (process_line line) st)
  /\ word_idx (final (process_line line) st)
     + token_idx (final (process_line line) st)
     <= word_idx st + token_idx st + 1.
Proof.
  destruct line as [|c r]; [unfold process_line, final, ret; simpl; lia|].
  unfold process_line. destruct (Ascii.eqb c "#"%char).
  - rewrite pure_process_comment. lia.
  - destruct (Nat.eqb_spec (length (split tab (strip (String c r)))) 10) as [E|E].
    + unfold final. rewrite (process_row_ten _ st E).
      fold (final (row_body (split tab (strip (String c r)))) st).
      destruct (final_row_body (split tab (strip (String c r))) st)
        as [[_ ->]|(n & t & _ & H1 & H2 & H3)]; [lia|].
      rewrite H1, H2. destruct (contains "-"%char n); lia.
    + unfold final. rewrite (process_row_not_ten _ st E). simpl. lia.
Qed.

Module ReaderPairs.
Import Py ConnluReader ReaderFacts ReaderMore.

Lemma split_nonempty c s : exists h t, split c s = h :: t.
Proof.
  induction s as [|d r IH]; simpl; [eauto|].
  destruct (Ascii.eqb d c); [eauto|].
  destruct IH as (h & t & E). rewrite E. eauto.
Qed.

Lemma process_deps_raises name columns c8 st :
  nth_error columns 8 = Some c8 -> String.eqb c8 "_" = false ->
  exists e, result (process_deps name columns) st = inl e.
Proof.
  intros H8 Hn. unfold process_deps, getitem. rewrite H8.
  unfold result. rewrite bind_ret_l. rewrite Hn. simpl negb. cbv iota.
  destruct (split_nonempty "|"%char c8) as (h & t & E). rewrite E.
  change (exists e,
            result (process_dep name h ;; for_each t (process_dep name)) st
            = inl e).
  rewrite result_bind.
  destruct (process_dep_raises name h st) as [e He].
  rewrite He. eauto.
Qed.

Lemma process_pair_ok name group p st :
  contains "="%char p = true ->
  exists c, process_pair name group p st = (st, [c], inr tt)
            /\ stores_pair name group p c.
Proof.
  intros H. destruct (split1_spec _ _ H) as (k & v & Es & Ep & Hk).
  exists (pair_feature name group k v). split.
  - unfold process_pair, pair_feature. rewrite H, Es. simpl negb. cbv iota.
    simpl unpack2. rewrite !bind_ret_l. cbn [fst snd].
    destruct (String.eqb k "SpaceAfter"); reflexivity.
  - exists k, v. auto.
Qed.

Lemma process_pair_bad name group p st :
  contains "="%char p = false ->
  process_pair name group p st
  = (st, [], inl (ReaderError ("Invalid key-value pair '" ++ p ++ "'."))).
Proof.
  intros H. unfold process_pair. rewrite H. reflexivity.
Qed.

Lemma pairs_ok name group ps st :
  forallb (contains "="%char) ps = true ->
  exists cs,
    for_each ps (process_pair name group) st = (st, cs, inr tt)
    /\ Forall2 (stores_pair name group) ps cs.
Proof.
  induction ps as [|p r IH]; simpl; intros H.
  - exists []. split; [reflexivity|constructor].
  - apply andb_true_iff in H. destruct H as [Hp Hr].
    destruct (process_pair_ok name group p st Hp) as (c & Ec & Sc).
    destruct (IH Hr) as (cs & Ecs & Scs).
    exists (c :: cs). split; [|constructor; assumption].
    unfold bind. rewrite Ec, Ecs. reflexivity.
Qed.

Lemma pairs_bad name group good bad rest st :
  forallb (contains "="%char) good = true ->
  contains "="%char bad = false ->
  exists cs,
    for_each (good ++ bad :: rest) (process_pair name group) st
    = (st, cs, inl (ReaderError ("Invalid key-value pair '" ++ bad ++ "'.")))
    /\ Forall2 (stores_pair name group) good cs.
Proof.
  intros Hg Hb. induction good as [|p r IH]; simpl.
  - exists []. split; [|constructor].
    unfold bind. rewrite (process_pair_bad name group bad st Hb). reflexivity.
  - simpl in Hg. apply andb_true_iff in Hg. destruct Hg as [Hp Hr].
    destruct (process_pair_ok name group p st Hp) as (c & Ec & Sc).
    destruct (IH Hr) as (cs & Ecs & Scs).
    exists (c :: cs). split; [|constructor; assumption].
    unfold bind. rewrite Ec. simpl in Ecs. rewrite Ecs. reflexivity.
Qed.

Lemma group_ok name group val st :
  forallb (contains "="%char) (pairs_of val) = true ->
  exists cs,
    (if String.eqb val "_" then ret tt
     else for_each (split "|"%char val) (process_pair name group)) st
    = (st, cs, inr tt)
    /\ Forall2 (stores_pair name group) (pairs_of val) cs.
Proof.
  unfold pairs_of. destruct (String.eqb val "_").
  - intros _. exists []. split; [reflexivity|constructor].
  - apply pairs_ok.
Qed.

End ReaderPairs.

Import ReaderPairs.

(** X5.  A row of ten columns whose DEPS column is not the placeholder is
    never decoded to its end: the row raises, in DEPS if not before. *)
Theorem X5_row_with_deps_always_raises
    (line : string) (st : counters) (name c8 : string) (rest : list string) :
  is_empty line = false -> is_comment line = false ->
  split tab (strip line) = name :: rest -> length rest = 9%nat ->
  nth_error rest 7 = Some c8 -> String.eqb c8 "_" = false ->
  exists e, result (process_line line) st = inl e.
Proof.
  intros Hb Hc Hs Hl H8 Hn.
  unfold result. rewrite (process_line_unit line name rest Hb Hc Hs Hl).
  fold (result (declare_unit name ;;
                (process_groups name (name :: rest) ;;
                 process_columns name (name :: rest) ;;
                 process_deps name (name :: rest))) st).
  rewrite result_bind. destruct (result (declare_unit name) st); [eauto|].
  rewrite result_bind.
  destruct (result (process_groups name (name :: rest)) _); [eauto|].
  rewrite result_bind.
  destruct (result (process_columns name (name :: rest)) _); [eauto|].
  apply process_deps_raises with (c8 := c8); assumption.
Qed.

Lemma X5_row_with_deps_always_raises_witness :
  exists e,
    result (process_line
              (ConnluReader.row
                 ["3"; "c"; "_"; "_"; "_"; "_"; "2"; "nsubj"; "2:nsubj"; "_"]))
           reset = inl e.
Proof.
  exact (X5_row_with_deps_always_raises
           (ConnluReader.row
              ["3"; "c"; "_"; "_"; "_"; "_"; "2"; "nsubj"; "2:nsubj"; "_"])
           reset "3" "2:nsubj"
           ["c"; "_"; "_"; "_"; "_"; "2"; "nsubj"; "2:nsubj"; "_"]
           eq_refl eq_refl eq_refl eq_refl eq_refl eq_refl).
Defined.

(** X6.  When the first pair of FEATS without an equals sign is [bad],
    lines 88-99 raise the decode error that names [bad], after storing
    the pairs before it, each split at its first equals sign, and nothing
    else: MISC is not looked at, and the counters are unchanged. *)
Theorem X6_feats_pair_without_equals
    (name : string) (columns : list string) (c5 c9 : string)
    (good : list string) (bad : string) (rest : list string) (st : counters) :
  nth_error columns 5 = Some c5 -> nth_error columns 9 = Some c9 ->
  String.eqb c5 "_" = false ->
  split "|"%char c5 = (good ++ bad :: rest)%list ->
  forallb (contains "="%char) good = true ->
  contains "="%char bad = false ->
  exists cs,
    process_groups name columns st
    = (st, cs, inl (ReaderError ("Invalid key-value pair '" ++ bad ++ "'.")))
    /\ Forall2 (stores_pair name "UD/FEATS") good cs.
Proof.
  intros H5 H9 Hn Hs Hg Hb.
  destruct (pairs_bad name "UD/FEATS" good bad rest st Hg Hb) as (cs & E & F).
  exists cs. split; [|exact F].
  unfold process_groups, ConnluReader.getitem. rewrite H5, H9.
  rewrite !bind_ret_l. simpl for_each. cbn [fst snd]. rewrite Hn, Hs.
  unfold bind at 1. rewrite E. reflexivity.
Qed.

Lemma X6_feats_pair_without_equals_witness :
  exists cs,
    process_groups "1"
      ["1"; "x"; "_"; "_"; "_"; "Case=Nom|Plural|Gender=Fem"; "_"; "_"; "_"; "A=b"]
      reset
    = (reset, cs, inl (ReaderError "Invalid key-value pair 'Plural'."))
    /\ Forall2 (stores_pair "1" "UD/FEATS") ["Case=Nom"] cs.
Proof.
  exact (X6_feats_pair_without_equals "1"
           ["1"; "x"; "_"; "_"; "_"; "Case=Nom|Plural|Gender=Fem"; "_"; "_"; "_"; "A=b"]
           "Case=Nom|Plural|Gender=Fem" "A=b" ["Case=Nom"] "Plural" ["Gender=Fem"]
           reset eq_refl eq_refl eq_refl eq_refl eq_refl eq_refl).
Defined.

(** X7.  When every pair of FEATS and of MISC has an equals sign, lines
    88-99 return without touching the counters, and their calls are one
    feature for each pair of FEATS in tier [UD/FEATS], in order, followed
    by one for each pair of MISC in tier [UD/MISC]; each pair is split at
    its first equals sign, so the value may contain further equals signs.
    A column that is the placeholder has no pairs. *)
Theorem X7_feats_and_misc_pairs
    (name : string) (columns : list string) (c5 c9 : string) (st : counters) :
  nth_error columns 5 = Some c5 -> nth_error columns 9 = Some c9 ->
  forallb (contains "="%char) (pairs_of c5) = true ->
  forallb (contains "="%char) (pairs_of c9) = true ->
  exists cs5 cs9,
    process_groups name columns st = (st, (cs5 ++ cs9)%list, inr tt)
    /\ Forall2 (stores_pair name "UD/FEATS") (pairs_of c5) cs5
    /\ Forall2 (stores_pair name "UD/MISC") (pairs_of c9) cs9.
Proof.
  intros H5 H9 F5 F9.
  destruct (group_ok name "UD/FEATS" c5 st F5) as (cs5 & E5 & S5).
  destruct (group_ok name "UD/MISC" c9 st F9) as (cs9 & E9 & S9).
  exists cs5, cs9. split; [|split; assumption].
  unfold process_groups, ConnluReader.getitem. rewrite H5, H9.
  rewrite !bind_ret_l. simpl for_each. cbn [fst snd].
  unfold bind at 1. rewrite E5.
  unfold bind at 1. rewrite E9. simpl. rewrite app_nil_r. reflexivity.
Qed.

Lemma X7_feats_and_misc_pairs_witness :
  exists cs5 cs9,
    process_groups "1"
      ["1"; "x"; "_"; "_"; "_"; "_"; "_"; "_"; "_"; "Gloss=a=b|SpaceAfter=No"]
      reset
    = (reset, (cs5 ++ cs9)%list, inr tt)
    /\ Forall2 (stores_pair "1" "UD/FEATS") (pairs_of "_") cs5
    /\ Forall2 (stores_pair "1" "UD/MISC")
         (pairs_of "Gloss=a=b|SpaceAfter=No") cs9.
Proof.
  exact (X7_feats_and_misc_pairs "1"
           ["1"; "x"; "_"; "_"; "_"; "_"; "_"; "_"; "_"; "Gloss=a=b|SpaceAfter=No"]
           "_" "Gloss=a=b|SpaceAfter=No" reset eq_refl eq_refl eq_refl eq_refl).
Defined.

(** X8.  On a row of ten columns, lines 101-110 never raise and leave the
    counters unchanged.  Each of the columns 1, 2, 3, 4 and 7 that is not
    the placeholder is stored verbatim as the string feature [form],
    [lemma], [upos], [xpos] or [deprel] of tier UD, and a column that is
    the placeholder stores nothing; the value 0 is skipped for the head
    only. *)
Theorem X8_single_valued_columns
    (name c0 c1 c2 c3 c4 c5 c6 c7 c8 c9 : string) (st : counters) :
  exists cs,
    process_columns name [c0; c1; c2; c3; c4; c5; c6; c7; c8; c9] st
    = (st, cs, inr tt)
    /\ filter (sets_UD "form") cs
       = (if String.eqb c1 "_" then []
          else [CSetFeature name "UD" "form" "str" (VStr c1)])
    /\ filter (sets_UD "lemma") cs
       = (if String.eqb c2 "_" then []
          else [CSetFeature name "UD" "lemma" "str" (VStr c2)])
    /\ filter (sets_UD "upos") cs
       = (if String.eqb c3 "_" then []
          else [CSetFeature name "UD" "upos" "str" (VStr c3)])
    /\ filter (sets_UD "xpos") cs
       = (if String.eqb c4 "_" then []
          else [CSetFeature name "UD" "xpos" "str" (VStr c4)])
    /\ filter (sets_UD "deprel") cs
       = (if String.eqb c7 "_" then []
          else [CSetFeature name "UD" "deprel" "str" (VStr c7)])
    /\ (length cs <= 6)%nat.
Proof.
  unfold process_columns, col_names. simpl for_each.
  unfold bind, ConnluReader.getitem, set_feature, emit, ret. simpl.
  destruct (String.eqb c1 "_"), (String.eqb c2 "_"), (String.eqb c3 "_"),
    (String.eqb c4 "_"), (String.eqb c6 "_"), (String.eqb c7 "_"); simpl;
    try destruct (String.eqb c6 "0"); simpl;
    eexists; (split; [reflexivity|]); simpl; repeat split; lia.
Qed.

(* ===================================================================== *)
(** * From the encoder back to the decoder                                *)
(* ===================================================================== *)

Module PyFacts.
Import Py.











End PyFacts.

Import PyFacts.



(* ===================================================================== *)
(** * Further properties of the encoder                                   *)
(* ===================================================================== *)

Module WriterMore.
Import Py ConlluWriter WriterFacts.











(** ** [join] of the rows *)




(** ** The rows after the heads *)




(** ** [sorted] *)






(** ** A feature key that [feat_dict] does not have *)




End WriterMore.

Import WriterMore.













Module WriterTop.
Import Py ConlluWriter.

Lemma last_key_cons p (x : key * featspec) l d :
  last_key p (x :: l) d
  = last_key p l (if p (snd x) then Some (fst x) else d).
Proof.
  unfold last_key. simpl filter. destruct (p (snd x)); [|reflexivity].
  simpl rev.
  destruct (rev (filter (fun kv : key * featspec => p (snd kv)) l))
    as [|[k v] t]; simpl; [destruct x|]; reflexivity.
Qed.

Lemma sent_id_not_null v : is_sent_id v = true -> is_null_spec v = false.
Proof.
  destruct v as [[t f] y]. unfold is_sent_id, is_null_spec, spec_eqb.
  destruct (String.eqb_spec f "sent_id") as [->|Hf].
  - intros _. rewrite andb_false_r. reflexivity.
  - rewrite !andb_false_r. discriminate.
Qed.

Lemma write_sentences_app db fd sid null a : forall b,
  write_sentences db fd sid null (a ++ b)
  = match write_sentences db fd sid null a with
    | (o, Some e) => (o, Some e)
    | (o, None) =>
        let '(o', e) := write_sentences db fd sid null b in ((o ++ o')%list, e)
    end.
Proof.
  induction a as [|s r IH]; simpl; intros b.
  - destruct (write_sentences db fd sid null b). reflexivity.
  - destruct (write_sentence db fd sid null s) as [o [e|]]; [reflexivity|].
    rewrite IH.
    destruct (write_sentences db fd sid null r) as [o1 [e1|]]; [reflexivity|].
    destruct (write_sentences db fd sid null b) as [o2 e2].
    rewrite app_assoc. reflexivity.
Qed.

Lemma write_sentences_ok db fd sid null ss :
  forallb (fun s => match snd (write_sentence db fd sid null s) with
                    | None => true | Some _ => false end) ss = true ->
  write_sentences db fd sid null ss = (chunks_of db fd sid null ss, None).
Proof.
  unfold chunks_of. induction ss as [|s r IH]; simpl; intros H; [reflexivity|].
  apply andb_true_iff in H. destruct H as [H1 H2].
  destruct (write_sentence db fd sid null s) as [o [e|]]; [discriminate|].
  rewrite (IH H2). reflexivity.
Qed.

End WriterTop.

Import WriterTop.

(** X15.  Lines 132-138 take as the key of [sent_id] the last key of
    [feat_dict] whose value is [UD:sent_id] of type [str] or [int], and as
    the key of [null] the last key whose value is [UD:null] of type
    [bool]; each is [None] when there is no such key. *)
Theorem X15_find_keys_takes_the_last (items : dict featspec) :
  find_keys items None None
  = (last_key is_sent_id items None, last_key is_null_spec items None).
Proof.
  generalize (@None key) at 1 3 as s0. generalize (@None key) as n0.
  induction items as [|[k v] r IH]; intros n0 s0; [reflexivity|].
  rewrite !last_key_cons. simpl find_keys. cbn [fst snd].
  fold (is_sent_id v). fold (is_null_spec v).
  destruct (is_sent_id v) eqn:E.
  - rewrite (sent_id_not_null v E). apply IH.
  - destruct (is_null_spec v); apply IH.
Qed.

(** X16.  The sentences are written one after the other until one of them
    raises: the sentences before it are written in full, the failing one
    as far as it got, and no sentence after it; when none raises, all are
    written. *)
Theorem X16_write_stops_at_the_first_failure
    (db : store) (fd : dict featspec) (sid null : option key)
    (before : list unit_feats) (s : unit_feats) (after : list unit_feats)
    (e : exn) :
  forallb (fun x => match snd (write_sentence db fd sid null x) with
                    | None => true | Some _ => false end) before = true ->
  snd (write_sentence db fd sid null s) = Some e ->
  write_sentences db fd sid null (before ++ s :: after)
  = ((chunks_of db fd sid null before
      ++ fst (write_sentence db fd sid null s))%list, Some e)
  /\ write_sentences db fd sid null before
     = (chunks_of db fd sid null before, None).
Proof.
  intros Hb Hs. pose proof (write_sentences_ok db fd sid null before Hb) as E.
  split; [|exact E].
  rewrite write_sentences_app, E. simpl.
  destruct (write_sentence db fd sid null s) as [o oe]. simpl in Hs. subst oe.
  reflexivity.
Qed.

Lemma X16_write_stops_at_the_first_failure_witness :
  let db := mkStore ex_feat_dict
              [(VInt 20, [(6, VStr "s1")]); (VInt 30, [(9, VStr "x")]);
               (VInt 40, [])]
              (fun _ => [(VInt 21, [(1, VStr "The")])]) in
  write_sentences db ex_feat_dict (Some 6) (Some 5)
    [(VInt 20, [(6, VStr "s1")]); (VInt 30, [(9, VStr "x")]); (VInt 40, [])]
  = ((chunks_of db ex_feat_dict (Some 6) (Some 5) [(VInt 20, [(6, VStr "s1")])]
      ++ [("# sent_id = 30" ++ nl)%string])%list, Some (KeyError 9))
  /\ write_sentences db ex_feat_dict (Some 6) (Some 5) [(VInt 20, [(6, VStr "s1")])]
     = (chunks_of db ex_feat_dict (Some 6) (Some 5) [(VInt 20, [(6, VStr "s1")])],
        None).
Proof.
  exact (X16_write_stops_at_the_first_failure
           (mkStore ex_feat_dict
              [(VInt 20, [(6, VStr "s1")]); (VInt 30, [(9, VStr "x")]);
               (VInt 40, [])]
              (fun _ => [(VInt 21, [(1, VStr "The")])]))
           ex_feat_dict (Some 6) (Some 5)
           [(VInt 20, [(6, VStr "s1")])] (VInt 30, [(9, VStr "x")])
           [(VInt 40, [])] (KeyError 9) eq_refl eq_refl).
Defined.

(* ===================================================================== *)
(** * Further properties of the importer                                  *)
(* ===================================================================== *)

Module ImporterMore.
Import Py Importer ImporterFacts.

Section Loop.

Context {db : Type} (r : reader db).

(** What the loop has read and logged, for any reader. *)
Lemma loop_reads l : forall t t' o,
  loop r l t = (t', o) ->
  exists n,
    (n <= length l)%nat
    /\ treads t' = (treads t ++ firstn n l)%list
    /\ match o with
       | None => n = length l
                 /\ length (tlog t') = (length (tlog t) + n)%nat
       | Some e => not_caught e = true
                   /\ (length (tlog t') + 1 = length (tlog t) + n)%nat
       end.
Proof.
  induction l as [|pth rest IH]; simpl; intros t t' o H.
  - inversion H; subst. exists 0%nat. simpl. rewrite app_nil_r. auto.
  - destruct (r pth (tstore t)) as [d [e|]].
    + destruct e;
        try (inversion H; subst; exists 1%nat; simpl;
             repeat split; auto; lia).
      apply IH in H. destruct H as (n & Hn & Hr & Ho). simpl in Hr, Ho.
      exists (S n). split; [lia|]. split.
      * rewrite Hr, <- app_assoc. reflexivity.
      * rewrite length_app in Ho. simpl in Ho.
        destruct o; destruct Ho as [H1 H2]; split; auto; lia.
    + apply IH in H. destruct H as (n & Hn & Hr & Ho). simpl in Hr, Ho.
      exists (S n). split; [lia|]. split.
      * rewrite Hr, <- app_assoc. reflexivity.
      * rewrite length_app in Ho. simpl in Ho.
        destruct o; destruct Ho as [H1 H2]; split; auto; lia.
Qed.

Lemma loop_none_reads l t t' :
  loop r l t = (t', None) -> treads t' = (treads t ++ l)%list.
Proof.
  intros H. destruct (loop_reads l t t' None H) as (n & _ & Hr & Hn & _).
  rewrite Hr, Hn, firstn_all. reflexivity.
Qed.

End Loop.

End ImporterMore.

Import ImporterMore.

(** X17.  Whatever the readers do, a run reads a prefix of the list of
    files, in order.  When it ends without an exception it has read every
    file and logged one line for each; when it ends with an exception, the
    exception is not a [ReaderError] and the log has one line for each
    file read but the last.  (An unknown mode reads no file.) *)
Theorem X17_run_reads_a_prefix
    {db : Type} (ALL_READERS : string -> option (reader db))
    (mode : string) (infiles : list string) (d : db) :
  exists n,
    (n <= length infiles)%nat
    /\ treads (fst (run ALL_READERS mode infiles d)) = firstn n infiles
    /\ match snd (run ALL_READERS mode infiles d) with
       | None => n = length infiles
                 /\ length (tlog (fst (run ALL_READERS mode infiles d))) = n
       | Some e => not_caught e = true
                   /\ length (tlog (fst (run ALL_READERS mode infiles d)))
                      = pred n
       end.
Proof.
  unfold run. destruct (ALL_READERS mode) as [r|].
  - destruct (loop r infiles (mkTrace d [] [])) as [t o] eqn:E.
    destruct (loop_reads r infiles _ t o E) as (n & Hn & Hr & Ho).
    exists n. simpl in *. split; [exact Hn|]. split; [exact Hr|].
    destruct o; destruct Ho as [H1 H2]; split; auto; lia.
  - exists 0%nat. simpl. repeat split. lia.
Qed.

(** X18.  An exception of [read] that is not a [ReaderError] ends the run
    at that file: when the files before it were imported and [read]
    raises such an exception on a file, the run ends with this exception,
    the files after it are not read, and the log has the lines of the
    files before it and none for this file. *)
Theorem X18_other_exception_ends_the_run
    {db : Type} (ALL_READERS : string -> option (reader db))
    (mode : string) (r : reader db)
    (before : list string) (pth : string) (after : list string)
    (d d' : db) (t : trace db) (e : exn) :
  ALL_READERS mode = Some r ->
  loop r before (mkTrace d [] []) = (t, None) ->
  r pth (tstore t) = (d', Some e) ->
  not_caught e = true ->
  run ALL_READERS mode (before ++ pth :: after) d
  = (mkTrace d' (tlog t) (before ++ [pth]), Some e)
  /\ length (tlog t) = length before.
Proof.
  intros Hm Hb Hp He. unfold run. rewrite Hm, loop_app, Hb.
  simpl. rewrite Hp.
  pose proof (loop_none_reads r before _ t Hb) as Hr. simpl in Hr.
  destruct (loop_reads r before _ t None Hb) as (n & _ & _ & Hn & Hl).
  simpl in Hl. split; [|lia].
  rewrite Hr. destruct e; try reflexivity. discriminate He.
Qed.

Lemma X18_other_exception_ends_the_run_witness :
  let boom : reader nat :=
    fun pth n => if String.eqb pth "deps.conllu"
                 then (n, Some (NameError "h")) else (S n, None) in
  run (fun _ => Some boom) "conllu" ["a.conllu"; "deps.conllu"; "c.conllu"] 0%nat
  = (mkTrace 1%nat [LogInfo "a.conllu"] ["a.conllu"; "deps.conllu"],
     Some (NameError "h"))
  /\ length [LogInfo "a.conllu"] = length ["a.conllu"].
Proof.
  exact (X18_other_exception_ends_the_run
           (fun _ => Some (fun pth n => if String.eqb pth "deps.conllu"
                                        then (n, Some (NameError "h"))
                                        else (S n, None)))
           "conllu" _ ["a.conllu"] "deps.conllu" ["c.conllu"]
           0%nat 1%nat (mkTrace 1%nat [LogInfo "a.conllu"] ["a.conllu"])
           (NameError "h") eq_refl eq_refl eq_refl eq_refl).
Defined.

(* ===================================================================== *)
(** * The positions of the words are distinct                             *)
(* ===================================================================== *)

Module Positions.
Import Py ConnluReader ConlluWriter WriterFacts PyFacts.









End Positions.

Import Positions.



(* ===================================================================== *)
(** * The calls of the decoder are well typed                             *)
(* ===================================================================== *)

Module ReaderTyping.
Import Py ConnluReader ReaderFacts ReaderMore.

Lemma emits_row_body_typed columns :
  emits (fun c => well_typed c = true) (row_body columns).
Proof.
  unfold row_body, declare_unit, process_groups, process_columns, process_pair, error.
  apply emits_bind; [apply emits_getitem|intros name].
  repeat (apply emits_bind; [|intros ?]).
  all: try (simpl for_each).
  all: try (apply emits_process_deps; reflexivity).
  all: repeat emits_step.
  all: try reflexivity.
  all: simpl; destruct (contains "-"%char name); reflexivity.
Qed.

Lemma emits_process_comment_typed line :
  emits (fun c => well_typed c = true) (process_comment line).
Proof.
  unfold process_comment. repeat emits_step. reflexivity.
Qed.

Lemma declare_unit_ValueError name a b st :
  contains "-"%char name = true ->
  split1 "-"%char name = [a; b] ->
  isdigit a && isdigit b = true ->
  match numeric a, numeric b with
  | Some _, Some _ => false
  | _, _ => true
  end = true ->
  exists m, result (declare_unit name) st = inl (ValueError m).
Proof.
  intros Hc Hs Hd Hn. unfold declare_unit, result. rewrite Hc, Hs.
  unfold bind at 1 2 3 4 5 6. simpl. rewrite Hd.
  apply andb_true_iff in Hd. destruct Hd as [Da Db].
  destruct (numeric a) as [lo|] eqn:Na.
  - destruct (numeric_some _ _ Na) as [_ Ia]. rewrite Ia.
    destruct (numeric b) as [hi|] eqn:Nb; [discriminate|].
    destruct (numeric_none _ Nb) as [Hb|[e Ib]]; [congruence|].
    rewrite Ib. destruct (int_raises_ValueError _ _ Ib) as [m ->].
    simpl. eauto.
  - destruct (numeric_none _ Na) as [Ha|[e Ia]]; [congruence|].
    rewrite Ia. destruct (int_raises_ValueError _ _ Ia) as [m ->].
    simpl. eauto.
Qed.

End ReaderTyping.

Import ReaderTyping.

(** X20.  Every call that a line makes on the store is well typed: a type
    is [word], [token] or [UD-edep], a parent is the sentence, and a
    feature is set in one of the tiers [UD], [meta], [UD/FEATS] and
    [UD/MISC] with a declared type that agrees with its value ([str] or
    [ref] with a string, [int] with an integer, [bool] with a boolean). *)
Theorem X20_calls_are_well_typed (line : string) (st : counters) :
  forallb well_typed (calls (process_line line) st) = true.
Proof.
  apply forallb_forall. apply Forall_forall.
  destruct line as [|c r]; [constructor|].
  unfold process_line. destruct (Ascii.eqb c "#"%char).
  - apply emits_process_comment_typed.
  - unfold calls, process_row.
    destruct (Nat.eqb_spec (length (split tab (strip (String c r)))) 10) as [E|E].
    + simpl negb. cbv iota. rewrite bind_ret_l. apply emits_row_body_typed.
    + simpl. constructor.
Qed.

(** X21.  A token row whose id halves both pass [isdigit] but are not both
    decimal numerals (a superscript digit passes [isdigit]) raises
    [ValueError], which is not a decode error, after the token is
    declared; it adds no relation. *)
Theorem X21_superscript_span_raises_ValueError
    (line : string) (st : counters) (name a b : string) (rest : list string) :
  is_empty line = false -> is_comment line = false ->
  split tab (strip line) = name :: rest -> length rest = 9%nat ->
  contains "-"%char name = true ->
  split1 "-"%char name = [a; b] ->
  isdigit a && isdigit b = true ->
  match numeric a, numeric b with
  | Some _, Some _ => false
  | _, _ => true
  end = true ->
  (exists m, result (process_line line) st = inl (ValueError m))
  /\ relations (calls (process_line line) st) = []
  /\ hd_error (calls (process_line line) st) = Some (CSetType name "token").
Proof.
  intros Hb Hc Hs Hl Ht Hsp Hd Hn.
  destruct (declare_unit_ValueError name a b st Ht Hsp Hd Hn) as [m Hm].
  destruct (declare_unit_token name st Ht) as (a' & b' & Hsp' & Hcalls).
  rewrite Hsp in Hsp'. inversion Hsp'; subst a' b'.
  unfold result, calls.
  rewrite (process_line_unit line name rest Hb Hc Hs Hl).
  fold (result (declare_unit name ;;
                (process_groups name (name :: rest) ;;
                 process_columns name (name :: rest) ;;
                 process_deps name (name :: rest))) st).
  fold (calls (declare_unit name ;;
               (process_groups name (name :: rest) ;;
                process_columns name (name :: rest) ;;
                process_deps name (name :: rest))) st).
  rewrite result_bind, calls_bind, Hm, Hcalls, app_nil_r.
  split; [eauto|]. split; [|reflexivity].
  rewrite relations_app. simpl relations at 1.
  rewrite relations_map_add.
  destruct (numeric a), (numeric b); try discriminate; reflexivity.
Qed.

Lemma X21_superscript_span_raises_ValueError_witness :
  let name := String "178"%char "-3" in
  let line := ConnluReader.row [name; "x"; "_"; "_"; "_"; "_"; "_"; "_"; "_"; "_"] in
  (exists m, result (process_line line) reset = inl (ValueError m))
  /\ relations (calls (process_line line) reset) = []
  /\ hd_error (calls (process_line line) reset) = Some (CSetType name "token").
Proof.
  exact (X21_superscript_span_raises_ValueError
           (ConnluReader.row
              [String "178"%char "-3"; "x"; "_"; "_"; "_"; "_"; "_"; "_"; "_"; "_"])
           reset (String "178"%char "-3") (String "178"%char "") "3"
           ["x"; "_"; "_"; "_"; "_"; "_"; "_"; "_"; "_"]
           eq_refl eq_refl eq_refl eq_refl eq_refl eq_refl eq_refl eq_refl).
Defined.

(* ===================================================================== *)
(** * The comment lines and the MISC column                               *)
(* ===================================================================== *)

Module WriterComments.
Import Py ConlluWriter.





End WriterComments.

Import WriterComments.







(* ===================================================================== *)
(** * From the decoder to the encoder                                     *)
(* ===================================================================== *)

Module RoundTrip.
Import Py ConnluReader ConlluWriter ReaderFacts ReaderMore ReaderPairs.
Import PyFacts WriterFacts WriterMore.








End RoundTrip.

Import RoundTrip.





